(** * stimer: a software timer library on top of a wrapping tick counter

    Shallow embedding of [src/stimer/stimer.c].  Unsigned 32-bit integers are
    integers in [Z] with the wrap-around written out ([u32]); pointers are
    optional addresses into a typed heap (one finite map for timers, one for
    contexts), [None] being the C [NULL]; every operation returns a [result]
    so that dereferencing [NULL] or a dangling pointer is visible as [Fault]
    and a loop that exceeds its budget as [OutOfFuel]. *)

From Stdlib Require Import ZArith List Lia Bool.
From stdpp Require Import base option gmap fin_maps.
Import ListNotations.

Local Open Scope Z_scope.

(* ------------------------------------------------------------------ *)
(** ** Machine integers *)

Definition U32_MOD : Z := 2 ^ 32.

(** Conversion to [uint32_t]: reduction modulo 2^32. *)
Definition u32 (z : Z) : Z := z mod U32_MOD.

Definition in_u32 (z : Z) : Prop := 0 <= z < U32_MOD.

(** One second, in nanoseconds (the literal [1000000000] of the source). *)
Definition NS_PER_S : Z := 1000000000.

(* ------------------------------------------------------------------ *)
(** ** Durations *)

(** [struct stimer_duration]: two [uint32_t] fields. *)
Record stimer_duration : Type := mk_duration {
  seconds : Z;
  nanoseconds : Z
}.

Definition duration_zero : stimer_duration :=
  {| seconds := 0; nanoseconds := 0 |}.

(** Both fields are representable [uint32_t] values. *)
Definition duration_u32 (d : stimer_duration) : Prop :=
  in_u32 (seconds d) /\ in_u32 (nanoseconds d).

(** The canonical form: the nanosecond field is a proper fraction of a
    second. *)
Definition normalized (d : stimer_duration) : Prop :=
  in_u32 (seconds d) /\ 0 <= nanoseconds d < NS_PER_S.

(** The time a duration stands for, in nanoseconds. *)
Definition total_ns (d : stimer_duration) : Z :=
  seconds d * NS_PER_S + nanoseconds d.

(** [advance_timer_duration]: one carry at most, no loop. *)
Definition advance_timer_duration (td : stimer_duration) (ns_advance : Z)
  : stimer_duration :=
  let headroom := u32 (NS_PER_S - nanoseconds td) in
  if ns_advance <? headroom then
    {| seconds := seconds td;
       nanoseconds := u32 (nanoseconds td + ns_advance) |}
  else
    {| seconds := u32 (seconds td + 1);
       nanoseconds := u32 (ns_advance - headroom) |}.

(** [timer_duration_ge]: seconds first, then nanoseconds. *)
Definition timer_duration_ge (lhs rhs : stimer_duration) : bool :=
  if seconds rhs <? seconds lhs then true
  else if seconds lhs =? seconds rhs then
    (if nanoseconds rhs <=? nanoseconds lhs then true else false)
  else false.

(** The subtraction written inline in [stimer_advance] on the expired path. *)
Definition subtract_interval (e x : stimer_duration) : stimer_duration :=
  let s1 := u32 (seconds e - seconds x) in
  if nanoseconds x <=? nanoseconds e then
    {| seconds := s1; nanoseconds := u32 (nanoseconds e - nanoseconds x) |}
  else
    {| seconds := u32 (s1 - 1);
       nanoseconds := u32 (nanoseconds e + u32 (NS_PER_S - nanoseconds x)) |}.

(** A sequence of [advance_timer_duration] calls on the same duration. *)
Definition advance_all (td : stimer_duration) (l : list Z) : stimer_duration :=
  fold_left advance_timer_duration l td.

Definition sum_ns (l : list Z) : Z := fold_right Z.add 0 l.

(** The interval stored by each unit-suffixed setter, for an argument that
    is a [uint32_t] value ([0 <= x < 2^32], where the division and the
    remainder of C are those of [Z]); the statements about the setters bound
    their arguments accordingly. *)
Definition interval_of_s (s : Z) : stimer_duration :=
  {| seconds := s; nanoseconds := 0 |}.

Definition interval_of_ms (ms : Z) : stimer_duration :=
  {| seconds := ms / 1000; nanoseconds := u32 ((ms mod 1000) * 1000000) |}.

Definition interval_of_us (us : Z) : stimer_duration :=
  {| seconds := us / 1000000; nanoseconds := u32 ((us mod 1000000) * 1000) |}.

Definition interval_of_ns (ns : Z) : stimer_duration :=
  {| seconds := ns / 1000000000; nanoseconds := ns mod 1000000000 |}.

(* ------------------------------------------------------------------ *)
(** ** Results of operations *)

(** An operation either completes, or dereferences an invalid pointer, or
    exceeds the iteration budget it was given for its loops. *)
Inductive result (A : Type) : Type :=
| Done (a : A)
| Fault
| OutOfFuel.

Arguments Done {A} a.
Arguments Fault {A}.
Arguments OutOfFuel {A}.

Definition bind {A B : Type} (r : result A) (k : A -> result B) : result B :=
  match r with
  | Done a => k a
  | Fault => Fault
  | OutOfFuel => OutOfFuel
  end.

Notation "'let*' x := r 'in' k" := (bind r (fun x => k))
  (at level 10, x pattern, r at level 100, k at level 200).

(* ------------------------------------------------------------------ *)
(** ** The heap: timers and contexts *)

Definition addr : Type := positive.

(** A C pointer: [None] is [NULL]. *)
Definition ptr : Type := option addr.

(** [struct stimer]. *)
Record stimer : Type := mk_stimer {
  ctx : ptr;
  next : ptr;
  checkpoint : Z;
  expire_interval : stimer_duration;
  elapsed : stimer_duration;
  is_running : bool
}.

Definition set_ctx (v : ptr) (t : stimer) : stimer :=
  mk_stimer v (next t) (checkpoint t) (expire_interval t) (elapsed t) (is_running t).
Definition set_next (v : ptr) (t : stimer) : stimer :=
  mk_stimer (ctx t) v (checkpoint t) (expire_interval t) (elapsed t) (is_running t).
Definition set_checkpoint (v : Z) (t : stimer) : stimer :=
  mk_stimer (ctx t) (next t) v (expire_interval t) (elapsed t) (is_running t).
Definition set_expire_interval (v : stimer_duration) (t : stimer) : stimer :=
  mk_stimer (ctx t) (next t) (checkpoint t) v (elapsed t) (is_running t).
Definition set_elapsed (v : stimer_duration) (t : stimer) : stimer :=
  mk_stimer (ctx t) (next t) (checkpoint t) (expire_interval t) v (is_running t).
Definition set_is_running (v : bool) (t : stimer) : stimer :=
  mk_stimer (ctx t) (next t) (checkpoint t) (expire_interval t) (elapsed t) v.

(** The part of a timer that the timing operations are about: everything
    but the two link fields. *)
Definition timing (t : stimer) : Z * stimer_duration * stimer_duration * bool :=
  (checkpoint t, expire_interval t, elapsed t, is_running t).

Section Model.

(** The environment the sampling function reads (the hardware counter, the
    cell a hint points to, ...). *)
Context {world : Type}.

(** [struct tm_math] of the timermath dependency, with its initialiser and
    its counter difference [tm_get_diff (tm, lhs, rhs)], a signed number of
    ticks.  The dependency is not part of this library: it is a parameter. *)
Context {tm_math : Type}.
Variable tm_initialize : Z -> tm_math.
Variable tm_get_diff : tm_math -> Z -> Z -> Z.

(** [stimer_get_time_fn]: the caller-supplied sampling function, from a
    [void *] hint to a [uint32_t]; it reads the environment. *)
Definition stimer_get_time_fn : Type := ptr -> world -> Z.

(** [struct stimer_ctx]. *)
Record stimer_ctx : Type := mk_stimer_ctx {
  root : ptr;
  tm : tm_math;
  ns_per_count : Z;
  get_time_fn : stimer_get_time_fn;
  hint : ptr
}.

Definition set_root (v : ptr) (c : stimer_ctx) : stimer_ctx :=
  mk_stimer_ctx v (tm c) (ns_per_count c) (get_time_fn c) (hint c).

Record state : Type := mk_state {
  timers : gmap addr stimer;
  ctxs : gmap addr stimer_ctx
}.

Definition load_timer (p : addr) (s : state) : result stimer :=
  match timers s !! p with
  | Some t => Done t
  | None => Fault
  end.

Definition load_ctx (p : addr) (s : state) : result stimer_ctx :=
  match ctxs s !! p with
  | Some c => Done c
  | None => Fault
  end.

Definition store_timer (p : addr) (t : stimer) (s : state) : state :=
  mk_state (<[p := t]> (timers s)) (ctxs s).

Definition store_ctx (p : addr) (c : stimer_ctx) (s : state) : state :=
  mk_state (timers s) (<[p := c]> (ctxs s)).

(** [free] of a timer and of a context. *)
Definition free_timer (p : addr) (s : state) : state :=
  mk_state (delete p (timers s)) (ctxs s).

Definition free_ctx (p : addr) (s : state) : state :=
  mk_state (timers s) (delete p (ctxs s)).

(** [ctx->get_time_fn (ctx->hint)]. *)
Definition sample (c : stimer_ctx) (w : world) : Z :=
  get_time_fn c (hint c) w.

(* ---------------------------------------------------------------- *)
(** *** Timer linking functions *)

Definition link_timer (c ts : addr) (s : state) : result state :=
  let* t := load_timer ts s in
  let s1 := store_timer ts (set_ctx (Some c) t) s in
  let* cx := load_ctx c s1 in
  let* t1 := load_timer ts s1 in
  let s2 :=
    match root cx with
    | None => store_timer ts (set_next None t1) s1
    | Some r => store_timer ts (set_next (Some r) t1) s1
    end in
  let* cx2 := load_ctx c s2 in
  Done (store_ctx c (set_root (Some ts) cx2) s2).

(** The [for] loop of [unlink_timer]: walk from [prev] until the timer whose
    [next] is [ts], and splice [ts] out. *)
Fixpoint unlink_search (fuel : nat) (ts : addr) (nxt : ptr) (prev : ptr)
    (s : state) : result state :=
  match prev with
  | None => Done s
  | Some p =>
    match fuel with
    | O => OutOfFuel
    | S fuel' =>
      let* t := load_timer p s in
      if decide (next t = Some ts) then
        Done (store_timer p (set_next nxt t) s)
      else unlink_search fuel' ts nxt (next t) s
    end
  end.

Definition unlink_timer (fuel : nat) (ts : addr) (s : state) : result state :=
  let* t := load_timer ts s in
  let nxt := next t in
  let c := ctx t in
  let s1 := store_timer ts (set_ctx None (set_next None t)) s in
  match c with
  | None => Done s1
  | Some ca =>
    let* cx := load_ctx ca s1 in
    if decide (root cx = Some ts) then
      Done (store_ctx ca (set_root nxt cx) s1)
    else unlink_search fuel ts nxt (root cx) s1
  end.

(* ---------------------------------------------------------------- *)
(** *** Timer math functions *)

Definition advance_and_checkpoint (ts : addr) (tmv : tm_math) (now : Z)
    (s : state) : result state :=
  let* t := load_timer ts s in
  if is_running t then
    let diff := tm_get_diff tmv now (checkpoint t) in
    if 0 <? diff then
      match ctx t with
      | None => Fault
      | Some ca =>
        let* cx := load_ctx ca s in
        let ns_advance := u32 (diff * ns_per_count cx) in
        Done (store_timer ts
                (set_checkpoint now
                   (set_elapsed (advance_timer_duration (elapsed t) ns_advance) t))
                s)
      end
    else Done s
  else Done s.

Definition advance_and_checkpoint_2 (ts : addr) (w : world) (s : state)
  : result state :=
  let* t := load_timer ts s in
  match ctx t with
  | None => Done s
  | Some ca =>
    let* cx := load_ctx ca s in
    let now := sample cx w in
    advance_and_checkpoint ts (tm cx) now s
  end.

(* ---------------------------------------------------------------- *)
(** *** Expire timer functions (private) *)

Definition start_and_checkpoint_timer (ts : addr) (w : world) (s : state)
  : result state :=
  let* t := load_timer ts s in
  match ctx t with
  | None => Done s
  | Some ca =>
    let* cx := load_ctx ca s in
    Done (store_timer ts
            (set_elapsed duration_zero
               (set_is_running true (set_checkpoint (sample cx w) t)))
            s)
  end.

(* ---------------------------------------------------------------- *)
(** *** Timer context (public) *)

(** [malloc] either fails ([ok = false], the result is [NULL]) or returns a
    block that is not live. *)
Definition stimer_alloc_context (ok : bool) (h : ptr) (fn : stimer_get_time_fn)
    (max_time ns_per_cnt : Z) (s : state) : result (state * ptr) :=
  if ok then
    let a := fresh (dom (ctxs s)) in
    Done (store_ctx a (mk_stimer_ctx None (tm_initialize max_time) ns_per_cnt fn h) s,
          Some a)
  else Done (s, None).

(** The [while] loop of [stimer_free_context]. *)
Fixpoint free_context_loop (fuel inner : nat) (ca : addr) (s : state)
  : result state :=
  let* cx := load_ctx ca s in
  match root cx with
  | None => Done s
  | Some r =>
    match fuel with
    | O => OutOfFuel
    | S fuel' =>
      let* s1 := unlink_timer inner r s in
      free_context_loop fuel' inner ca s1
    end
  end.

Definition stimer_free_context (fuel : nat) (c : ptr) (s : state)
  : result state :=
  match c with
  | None => Done s
  | Some ca =>
    let* s1 := free_context_loop fuel fuel ca s in
    Done (free_ctx ca s1)
  end.

(** The [for] loop of [stimer_execute_context]. *)
Fixpoint sweep (fuel : nat) (tmv : tm_math) (now : Z) (ts : ptr) (s : state)
  : result state :=
  match ts with
  | None => Done s
  | Some p =>
    match fuel with
    | O => OutOfFuel
    | S fuel' =>
      let* s1 := advance_and_checkpoint p tmv now s in
      let* t := load_timer p s1 in
      sweep fuel' tmv now (next t) s1
    end
  end.

Definition stimer_execute_context (fuel : nat) (c : ptr) (w : world)
    (s : state) : result state :=
  match c with
  | None => Done s
  | Some ca =>
    let* cx := load_ctx ca s in
    let now := sample cx w in
    sweep fuel (tm cx) now (root cx) s
  end.

(* ---------------------------------------------------------------- *)
(** *** Timer (public) *)

Definition stimer_alloc (ok : bool) (c : ptr) (s : state)
  : result (state * ptr) :=
  match c with
  | None => Done (s, None)
  | Some ca =>
    if ok then
      let a := fresh (dom (timers s)) in
      let s1 :=
        store_timer a (mk_stimer None None 0 duration_zero duration_zero false) s in
      let* s2 := link_timer ca a s1 in
      Done (s2, Some a)
    else Done (s, None)
  end.

Definition stimer_free (fuel : nat) (ts : ptr) (s : state) : result state :=
  match ts with
  | None => Done s
  | Some p =>
    let* s1 := unlink_timer fuel p s in
    Done (free_timer p s1)
  end.

(* ---------------------------------------------------------------- *)
(** *** Elapsed timer functions (public) *)

Definition stimer_start (ts : ptr) (w : world) (s : state) : result state :=
  match ts with
  | None => Done s
  | Some p => start_and_checkpoint_timer p w s
  end.

Definition stimer_stop (ts : ptr) (w : world) (s : state) : result state :=
  match ts with
  | None => Done s
  | Some p =>
    let* t := load_timer p s in
    match ctx t with
    | None => Done s
    | Some ca =>
      if is_running t then
        let* cx := load_ctx ca s in
        let now := sample cx w in
        let* s1 := advance_and_checkpoint p (tm cx) now s in
        let* t1 := load_timer p s1 in
        Done (store_timer p (set_is_running false t1) s1)
      else Done s
    end
  end.

(** The out-parameter [t] is the caller's duration: [None] when the pointer
    is [NULL], otherwise what it holds before the call; the second component
    of the result is what it holds after the call. *)
Definition stimer_get_elapsed_time (ts : ptr) (t : option stimer_duration)
    (w : world) (s : state) : result (state * option stimer_duration) :=
  match ts with
  | None => Done (s, t)
  | Some p =>
    let* tr := load_timer p s in
    let* s1 :=
      if is_running tr then
        match ctx tr with
        | None => Done s
        | Some ca =>
          let* cx := load_ctx ca s in
          let now := sample cx w in
          advance_and_checkpoint p (tm cx) now s
        end
      else Done s in
    let* tr1 := load_timer p s1 in
    match t with
    | None => Fault
    | Some _ => Done (s1, Some (elapsed tr1))
    end
  end.

(* ---------------------------------------------------------------- *)
(** *** Expire timer functions (public) *)

(** What every setter does after the reset: write the expire interval. *)
Definition write_expire_interval (p : addr) (d : stimer_duration) (s : state)
  : result state :=
  let* t := load_timer p s in
  Done (store_timer p (set_expire_interval d t) s).

Definition stimer_expire_from_now (ts : ptr) (t : option stimer_duration)
    (w : world) (s : state) : result state :=
  match ts, t with
  | Some p, Some d =>
    let* s1 := start_and_checkpoint_timer p w s in
    write_expire_interval p d s1
  | _, _ => Done s
  end.

Definition stimer_expire_from_now_s (ts : ptr) (sec : Z) (w : world)
    (s : state) : result state :=
  match ts with
  | None => Done s
  | Some p =>
    let* s1 := start_and_checkpoint_timer p w s in
    write_expire_interval p (interval_of_s sec) s1
  end.

Definition stimer_expire_from_now_ms (ts : ptr) (ms : Z) (w : world)
    (s : state) : result state :=
  match ts with
  | None => Done s
  | Some p =>
    let* s1 := start_and_checkpoint_timer p w s in
    write_expire_interval p (interval_of_ms ms) s1
  end.

Definition stimer_expire_from_now_us (ts : ptr) (us : Z) (w : world)
    (s : state) : result state :=
  match ts with
  | None => Done s
  | Some p =>
    let* s1 := start_and_checkpoint_timer p w s in
    write_expire_interval p (interval_of_us us) s1
  end.

Definition stimer_expire_from_now_ns (ts : ptr) (ns : Z) (w : world)
    (s : state) : result state :=
  match ts with
  | None => Done s
  | Some p =>
    let* s1 := start_and_checkpoint_timer p w s in
    write_expire_interval p (interval_of_ns ns) s1
  end.

Definition stimer_is_expired (ts : ptr) (w : world) (s : state)
  : result (state * bool) :=
  match ts with
  | None => Done (s, false)
  | Some p =>
    let* s1 := advance_and_checkpoint_2 p w s in
    let* t := load_timer p s1 in
    Done (s1, timer_duration_ge (elapsed t) (expire_interval t))
  end.

Definition stimer_restart_from_now (ts : ptr) (w : world) (s : state)
  : result state :=
  match ts with
  | None => Done s
  | Some p =>
    let* t := load_timer p s in
    if is_running t then start_and_checkpoint_timer p w s else Done s
  end.

Definition stimer_advance (ts : ptr) (w : world) (s : state) : result state :=
  match ts with
  | None => Done s
  | Some p =>
    let* t := load_timer p s in
    if is_running t then
      let* s1 := advance_and_checkpoint_2 p w s in
      let* t1 := load_timer p s1 in
      if timer_duration_ge (elapsed t1) (expire_interval t1) then
        Done (store_timer p
                (set_elapsed (subtract_interval (elapsed t1) (expire_interval t1)) t1)
                s1)
      else
        Done (store_timer p (set_elapsed duration_zero t1) s1)
    else Done s
  end.

(* ---------------------------------------------------------------- *)
(** *** Programs: sequences of calls of the public interface *)

(** One call of a public function, with its arguments; loops carry their
    iteration budget and allocations the outcome of [malloc]. *)
Inductive call : Type :=
| CallAllocContext (ok : bool) (h : ptr) (fn : stimer_get_time_fn)
    (max_time ns_per_cnt : Z)
| CallFreeContext (fuel : nat) (c : ptr)
| CallExecuteContext (fuel : nat) (c : ptr)
| CallAlloc (ok : bool) (c : ptr)
| CallFree (fuel : nat) (ts : ptr)
| CallStart (ts : ptr)
| CallStop (ts : ptr)
| CallGetElapsedTime (ts : ptr) (t : option stimer_duration)
| CallExpireFromNow (ts : ptr) (t : option stimer_duration)
| CallExpireFromNowS (ts : ptr) (sec : Z)
| CallExpireFromNowMs (ts : ptr) (ms : Z)
| CallExpireFromNowUs (ts : ptr) (us : Z)
| CallExpireFromNowNs (ts : ptr) (ns : Z)
| CallIsExpired (ts : ptr)
| CallRestartFromNow (ts : ptr)
| CallAdvance (ts : ptr).

Definition drop_value {A B : Type} (r : result (A * B)) : result A :=
  let* x := r in Done (fst x).

(** The effect of one call on the heap, in the environment [w]. *)
Definition exec (w : world) (c : call) (s : state) : result state :=
  match c with
  | CallAllocContext ok h fn mt npc =>
      drop_value (stimer_alloc_context ok h fn mt npc s)
  | CallFreeContext fuel c => stimer_free_context fuel c s
  | CallExecuteContext fuel c => stimer_execute_context fuel c w s
  | CallAlloc ok c => drop_value (stimer_alloc ok c s)
  | CallFree fuel ts => stimer_free fuel ts s
  | CallStart ts => stimer_start ts w s
  | CallStop ts => stimer_stop ts w s
  | CallGetElapsedTime ts t => drop_value (stimer_get_elapsed_time ts t w s)
  | CallExpireFromNow ts t => stimer_expire_from_now ts t w s
  | CallExpireFromNowS ts x => stimer_expire_from_now_s ts x w s
  | CallExpireFromNowMs ts x => stimer_expire_from_now_ms ts x w s
  | CallExpireFromNowUs ts x => stimer_expire_from_now_us ts x w s
  | CallExpireFromNowNs ts x => stimer_expire_from_now_ns ts x w s
  | CallIsExpired ts => drop_value (stimer_is_expired ts w s)
  | CallRestartFromNow ts => stimer_restart_from_now ts w s
  | CallAdvance ts => stimer_advance ts w s
  end.

(** A program: each call is made in the environment of its moment. *)
Fixpoint run (prog : list (world * call)) (s : state) : result state :=
  match prog with
  | [] => Done s
  | (w, c) :: rest => let* s1 := exec w c s in run rest s1
  end.

(** The calls that start timer [p] afresh: [stimer_start] and the
    expiration setters. *)
Definition starts (p : addr) (c : call) : bool :=
  match c with
  | CallStart ts
  | CallExpireFromNow ts _
  | CallExpireFromNowS ts _
  | CallExpireFromNowMs ts _
  | CallExpireFromNowUs ts _
  | CallExpireFromNowNs ts _ => bool_decide (ts = Some p)
  | _ => false
  end.


(** [stimer_free] of timer [p], which ends its life. *)
Definition frees (p : addr) (c : call) : bool :=
  match c with
  | CallFree _ ts => bool_decide (ts = Some p)
  | _ => false
  end.

(* ---------------------------------------------------------------- *)
(** *** Predicates used in the statements *)

(** The context pointer of a timer is [NULL] or points to a live context. *)
Definition ctx_valid (s : state) (t : stimer) : Prop :=
  match ctx t with
  | None => True
  | Some ca => is_Some (ctxs s !! ca)
  end.

(** [s'] is [s] with timer [p] started afresh at the counter value [now]
    with the expire interval [x]; nothing else differs. *)
Definition restarted (p : addr) (now : Z) (x : stimer_duration)
    (s s' : state) : Prop :=
  ctxs s' = ctxs s /\
  (forall q, q <> p -> timers s' !! q = timers s !! q) /\
  exists t t',
    timers s !! p = Some t /\ timers s' !! p = Some t' /\
    is_running t' = true /\ elapsed t' = duration_zero /\
    checkpoint t' = now /\ expire_interval t' = x /\
    ctx t' = ctx t /\ next t' = next t.

(** Every live context has a counter configuration in the class [ok_tm] and
    a scale factor in the class [ok_scale]. *)
Definition configured (ok_tm : tm_math -> Prop) (ok_scale : Z -> Prop)
    (s : state) : Prop :=
  forall ca cx, ctxs s !! ca = Some cx -> ok_tm (tm cx) /\ ok_scale (ns_per_count cx).


(** The state of a timer that has expired: its expire interval is [x], its
    elapsed time is canonical and has reached [x], and the seconds of the
    elapsed time can still grow by [n] without wrapping. *)
Definition expired_with_margin (x : stimer_duration) (n : nat) (t : stimer)
  : Prop :=
  expire_interval t = x /\ normalized (elapsed t) /\
  timer_duration_ge (elapsed t) x = true /\
  seconds (elapsed t) + Z.of_nat n < U32_MOD.

(** Timer [p] is live and expired with margin [n] (and, when [cp] is given,
    its checkpoint is [cp]), in a heap of configured contexts. *)
Definition stays_expired (ok_tm : tm_math -> Prop) (ok_scale : Z -> Prop)
    (p : addr) (x : stimer_duration) (n : nat) (cp : option Z) (s : state)
  : Prop :=
  configured ok_tm ok_scale s /\
  exists t, timers s !! p = Some t /\ expired_with_margin x n t /\
            match cp with
            | Some now => checkpoint t = now
            | None => True
            end.

(** What holds of timer [p] while a call that samples the counter at [now]
    runs: either it has not been advanced yet, or it has been advanced once
    and its checkpoint is [now]. *)
Definition during_call (ok_tm : tm_math -> Prop) (ok_scale : Z -> Prop)
    (p : addr) (x : stimer_duration) (n : nat) (now : Z) (s : state) : Prop :=
  stays_expired ok_tm ok_scale p x (S n) None s \/
  stays_expired ok_tm ok_scale p x n (Some now) s.

(** The context pointer of a timer points to a live context. *)
Definition attached (s : state) (t : stimer) : Prop :=
  exists ca, ctx t = Some ca /\ is_Some (ctxs s !! ca).

(** The list that starts at [ts] visits exactly the timers [l], in this
    order, each live and attached, and ends with [NULL]. *)
Fixpoint chain (s : state) (ts : ptr) (l : list addr) : Prop :=
  match l with
  | [] => ts = None
  | q :: l' =>
    ts = Some q /\
    exists t, timers s !! q = Some t /\ attached s t /\ chain s (next t) l'
  end.

(** A segment of the list of context [ca]: from [ts], the timers [l] in
    this order, each live with its context pointer at [ca], the [next] of
    the last one being [e] (and [ts] itself when [l] is empty). *)
Fixpoint segment (s : state) (ca : addr) (ts : ptr) (l : list addr) (e : ptr)
  : Prop :=
  match l with
  | [] => ts = e
  | q :: l' =>
    ts = Some q /\
    exists t, timers s !! q = Some t /\ ctx t = Some ca /\
              segment s ca (next t) l' e
  end.

(** Context [ca] is live and its list holds exactly the timers [l], from the
    root to [NULL]. *)
Definition registered (s : state) (ca : addr) (l : list addr) : Prop :=
  exists cx, ctxs s !! ca = Some cx /\ segment s ca (root cx) l None.

(** Timer [p] is live and its timing fields are [k]. *)
Definition has_timing (p : addr) (k : Z * stimer_duration * stimer_duration * bool)
    (s : state) : Prop :=
  exists t, timers s !! p = Some t /\ timing t = k.

(** A call that neither starts timer [p] nor frees it. *)
Definition keeps_stopped (p : addr) (c : call) : bool :=
  negb (starts p c) && negb (frees p c).


End Model.

Arguments stimer_ctx : clear implicits.
Arguments state : clear implicits.
Arguments call : clear implicits.
Arguments stimer_get_time_fn : clear implicits.

(* ------------------------------------------------------------------ *)
(** ** A reference environment, after the unit tests *)

(** Modelled from the spec: the counter difference of the timermath
    dependency ([tm_get_diff], not part of this library).  The configuration
    is the modulus [M], the greatest counter value; the two samples are taken
    as values of the ring of the [M + 1] counter values, and the difference
    is the forward distance travelled from [prev] to [cur] in that ring:
    [cur - prev] when [prev <= cur], and [(M + 1 - prev) + cur] when the
    counter has wrapped. *)
Definition ring_diff (M cur prev : Z) : Z := (cur - prev) mod (M + 1).

(** Modelled from the spec: the initialiser of the counter math
    ([tm_initialize]), which records the modulus. *)
Definition ring_initialize (max_time : Z) : Z := max_time.

(** [mock_get_time] of the unit tests: the environment is the value of the
    variable the hint points to. *)
Definition mock_get_time (h : ptr) (w : Z) : Z :=
  match h with
  | None => 0
  | Some _ => w
  end.

Abbreviation mock_state := (state Z Z).
Abbreviation mock_call := (call Z).

Definition mock_run (prog : list (Z * mock_call)) (s : mock_state)
  : result mock_state :=
  run ring_initialize ring_diff prog s.

Definition empty_state : mock_state := mk_state ∅ ∅.

(** The context of the unit tests: an 8-bit counter, one millisecond per
    count, the hint pointing to [current_time]. *)
Definition test_ctx (r : ptr) : stimer_ctx Z Z :=
  mk_stimer_ctx r (ring_initialize 255) 1000000 mock_get_time (Some 1%positive).

(** A context with no timer at address 1. *)
Definition ctx_only : mock_state :=
  mk_state ∅ {[ 1%positive := test_ctx None ]}.

(** One timer at address 1, linked to the context at address 1. *)
Definition one_timer (t : stimer) : mock_state :=
  mk_state {[ 1%positive := t ]} {[ 1%positive := test_ctx (Some 1%positive) ]}.

(** The value [stimer_is_expired] returns after a program run from the
    empty heap, and the duration [stimer_get_elapsed_time] writes. *)
Definition expired_after (prog : list (Z * mock_call)) (ts : ptr) (w : Z)
  : result bool :=
  let* s := mock_run prog empty_state in
  let* r := stimer_is_expired ring_diff ts w s in
  Done (snd r).

Definition elapsed_after (prog : list (Z * mock_call)) (ts : ptr) (w : Z)
  : result (option stimer_duration) :=
  let* s := mock_run prog empty_state in
  let* r := stimer_get_elapsed_time ring_diff ts (Some duration_zero) w s in
  Done (snd r).

(** [n] sweeps of the context at address 1, the counter going from [from + 1]
    to [from + n] (the loops of the unit tests). *)
Definition sweeps (from : Z) (n : nat) : list (Z * mock_call) :=
  map (fun i => (from + Z.of_nat i, CallExecuteContext 8 (Some 1%positive)))
      (seq 1 n).

(** The set-up of the tests: a context (address 1) on an 8-bit counter with
    one millisecond per count, and two timers (addresses 1 and 2). *)
Definition two_timers : list (Z * mock_call) :=
  [ (0, CallAllocContext true (Some 1%positive) mock_get_time 255 1000000);
    (0, CallAlloc true (Some 1%positive));
    (0, CallAlloc true (Some 1%positive)) ].

(** "Timer elapse math": both timers started at tick 0, then 1001 sweeps. *)
Definition elapse_test : list (Z * mock_call) :=
  two_timers
  ++ [ (0, CallStart (Some 1%positive)); (0, CallStart (Some 2%positive)) ]
  ++ sweeps 0 1001.

(** "Timer reset": both timers expire after 2 ms; at tick 3 the first is
    advanced and the second restarted. *)
Definition reset_test : list (Z * mock_call) :=
  two_timers
  ++ [ (0, CallExpireFromNowMs (Some 1%positive) 2);
       (0, CallExpireFromNowMs (Some 2%positive) 2);
       (2, CallIsExpired (Some 1%positive));
       (2, CallIsExpired (Some 2%positive));
       (3, CallIsExpired (Some 1%positive));
       (3, CallIsExpired (Some 2%positive));
       (3, CallAdvance (Some 1%positive));
       (3, CallRestartFromNow (Some 2%positive)) ].

(** A running timer linked to the context at address 1. *)
Definition running_timer (cp : Z) (x e : stimer_duration) : stimer :=
  mk_stimer (Some 1%positive) None cp x e true.

(** A stopped timer linked to the context at address 1. *)
Definition stopped_timer (cp : Z) (x e : stimer_duration) : stimer :=
  mk_stimer (Some 1%positive) None cp x e false.

(** A timer whose context is gone. *)
Definition detached_timer (cp : Z) (x e : stimer_duration) (r : bool) : stimer :=
  mk_stimer None None cp x e r.

(** A heap with one detached timer at address 1 and no context. *)
Definition detached (t : stimer) : mock_state :=
  mk_state {[ 1%positive := t ]} ∅.

(** A timer is started with a 2 ms interval, polled at tick 5, and then its
    context is destroyed. *)
Definition detach_running : list (Z * mock_call) :=
  [ (0, CallAllocContext true (Some 1%positive) mock_get_time 255 1000000);
    (0, CallAlloc true (Some 1%positive));
    (0, CallExpireFromNowMs (Some 1%positive) 2);
    (5, CallIsExpired (Some 1%positive));
    (5, CallFreeContext 8 (Some 1%positive)) ].


(** One second per count, and a timer whose expire interval is given as
    one second and 3_000_000_000 nanoseconds, which [stimer_expire_from_now]
    stores as it is; the timer is then polled at every tick up to tick 5. *)
Definition denormal_interval : list (Z * mock_call) :=
  [ (0, CallAllocContext true (Some 1%positive) mock_get_time 255 1000000000);
    (0, CallAlloc true (Some 1%positive));
    (0, CallExpireFromNow (Some 1%positive) (Some (mk_duration 1 3000000000)));
    (1, CallIsExpired (Some 1%positive));
    (2, CallIsExpired (Some 1%positive));
    (3, CallIsExpired (Some 1%positive));
    (4, CallIsExpired (Some 1%positive));
    (5, CallIsExpired (Some 1%positive)) ].

(** The heap after the set-up of the tests: the second timer allocated
    (address 2) is the root of the list and the first one follows it. *)
Definition two_timer_state : mock_state :=
  mk_state
    {[ 1%positive := stopped_timer 0 duration_zero duration_zero;
       2%positive := mk_stimer (Some 1%positive) (Some 1%positive) 0
                       duration_zero duration_zero false ]}
    {[ 1%positive := test_ctx (Some 2%positive) ]}.


(* ================================================================== *)
(** * Properties *)

(* ------------------------------------------------------------------ *)
(** ** Duration arithmetic *)

Lemma u32_small z : 0 <= z < U32_MOD -> u32 z = z.
Proof. intros H. unfold u32. now apply Z.mod_small. Qed.

Lemma u32_range z : in_u32 (u32 z).
Proof. unfold in_u32, u32, U32_MOD. apply Z.mod_pos_bound. lia. Qed.

Lemma normalized_u32 d : normalized d -> duration_u32 d.
Proof.
  unfold normalized, duration_u32, in_u32, NS_PER_S, U32_MOD.
  intros [Hs Hn]. split; [exact Hs | lia].
Qed.

(** One advance of at most a second keeps the canonical form and adds
    exactly the increment. *)
Lemma advance_timer_duration_step d a :
  normalized d -> 0 <= a <= NS_PER_S ->
  normalized (advance_timer_duration d a) /\
  total_ns (advance_timer_duration d a)
  = (total_ns d + a) mod (U32_MOD * NS_PER_S).
Proof.
  intros [[Hs0 Hs1] Hn] Ha.
  unfold advance_timer_duration, total_ns, normalized, in_u32 in *.
  unfold NS_PER_S, U32_MOD in *.
  assert (Hh : u32 (1000000000 - nanoseconds d) = 1000000000 - nanoseconds d).
  { apply u32_small. unfold U32_MOD. lia. }
  rewrite Hh.
  destruct (Z.ltb_spec a (1000000000 - nanoseconds d)) as [Hlt | Hge]; cbn [seconds nanoseconds].
  - rewrite u32_small by (unfold U32_MOD; lia).
    split; [lia |].
    rewrite Z.mod_small by nia. lia.
  - rewrite (u32_small (a - _)) by (unfold U32_MOD; lia).
    destruct (Z.eq_dec (seconds d + 1) (2 ^ 32)) as [Hw | Hw].
    + assert (Hz : u32 (seconds d + 1) = 0).
      { unfold u32, U32_MOD. rewrite Hw. apply Z.mod_same. lia. }
      rewrite Hz. split; [lia |].
      symmetry.
      replace (seconds d * 1000000000 + nanoseconds d + a)
        with ((a - (1000000000 - nanoseconds d)) + 1 * (2 ^ 32 * 1000000000)) by lia.
      rewrite Z.mod_add by lia. rewrite Z.mod_small by lia. lia.
    + rewrite (u32_small (seconds d + 1)) by (unfold U32_MOD; lia).
      split; [lia |].
      rewrite Z.mod_small by nia. lia.
Qed.

Lemma advance_all_steps l : forall d,
  normalized d -> Forall (fun a => 0 <= a <= NS_PER_S) l ->
  normalized (advance_all d l) /\
  total_ns (advance_all d l) = (total_ns d + sum_ns l) mod (U32_MOD * NS_PER_S).
Proof.
  induction l as [| a l IH]; intros d Hd Hl; cbn [advance_all fold_left sum_ns fold_right].
  - split; [exact Hd |].
    rewrite Z.add_0_r. symmetry. apply Z.mod_small.
    destruct Hd as [[? ?] ?]. unfold total_ns, NS_PER_S, U32_MOD in *. nia.
  - inversion Hl as [| ? ? Ha Hl']; subst.
    destruct (advance_timer_duration_step d a Hd Ha) as [Hn Ht].
    destruct (IH _ Hn Hl') as [Hn' Ht'].
    split; [exact Hn' |].
    unfold advance_all in Ht'. rewrite Ht', Ht.
    rewrite Zplus_mod_idemp_l. f_equal. unfold sum_ns. lia.
Qed.

(** C3 (as amended): starting from a canonical duration, after each call of
    a sequence of [advance_timer_duration] calls whose increments are at most
    one second (1_000_000_000 ns) each, the nanoseconds field is in
    [0, 1_000_000_000) and the represented time is the initial time plus the
    exact sum of the increments applied so far, modulo 2^32 seconds. *)
Theorem advance_all_invariant (d : stimer_duration) (l : list Z) (n : nat) :
  normalized d ->
  Forall (fun a => 0 <= a <= NS_PER_S) l ->
  0 <= nanoseconds (advance_all d (firstn n l)) < NS_PER_S /\
  total_ns (advance_all d (firstn n l))
  = (total_ns d + sum_ns (firstn n l)) mod (U32_MOD * NS_PER_S).
Proof.
  intros Hd Hl.
  assert (Hl' : Forall (fun a => 0 <= a <= NS_PER_S) (firstn n l)).
  { rewrite <- (firstn_skipn n l) in Hl. apply Forall_app in Hl. tauto. }
  destruct (advance_all_steps _ d Hd Hl') as [[_ Hn] Ht].
  split; assumption.
Qed.

(** The reference counter difference is the one the spec describes, on
    samples of the ring. *)
Lemma ring_diff_spec M cur prev :
  0 <= prev <= M -> 0 <= cur <= M ->
  ring_diff M cur prev
  = if cur <? prev then (M + 1 - prev) + cur else cur - prev.
Proof.
  intros Hp Hc. unfold ring_diff.
  destruct (Z.ltb_spec cur prev).
  - replace (cur - prev) with ((M + 1 - prev + cur) + (-1) * (M + 1)) by lia.
    rewrite Z.mod_add by lia. apply Z.mod_small. lia.
  - apply Z.mod_small. lia.
Qed.

Lemma ring_diff_same M t : ring_diff M t t = 0.
Proof. unfold ring_diff. rewrite Z.sub_diag. apply Zmod_0_l. Qed.

Lemma timer_duration_ge_true e x :
  timer_duration_ge e x = true <->
  seconds x < seconds e \/ (seconds e = seconds x /\ nanoseconds x <= nanoseconds e).
Proof.
  unfold timer_duration_ge.
  destruct (Z.ltb_spec (seconds x) (seconds e));
    destruct (Z.eqb_spec (seconds e) (seconds x));
    destruct (Z.leb_spec (nanoseconds x) (nanoseconds e));
    split; intros; try discriminate; try reflexivity; lia.
Qed.

(** On canonical durations the comparison is the comparison of the times. *)
Lemma timer_duration_ge_total e x :
  normalized e -> normalized x ->
  timer_duration_ge e x = true <-> total_ns x <= total_ns e.
Proof.
  intros [_ He] [_ Hx]. rewrite timer_duration_ge_true.
  unfold total_ns, NS_PER_S in *. split; intros; nia.
Qed.

(** The inline subtraction of [stimer_advance] is exact when the interval is
    canonical and not greater than the elapsed time. *)
Lemma subtract_interval_exact e x :
  duration_u32 e -> normalized x -> timer_duration_ge e x = true ->
  total_ns (subtract_interval e x) = total_ns e - total_ns x /\
  duration_u32 (subtract_interval e x) /\
  (normalized e -> normalized (subtract_interval e x)).
Proof.
  intros [[He0 He1] [Hn0 Hn1]] [[Hx0 Hx1] Hxn] Hge.
  apply timer_duration_ge_true in Hge.
  unfold subtract_interval, total_ns, duration_u32, normalized, in_u32 in *.
  unfold NS_PER_S, U32_MOD in *.
  assert (Hs : u32 (seconds e - seconds x) = seconds e - seconds x).
  { apply u32_small. unfold U32_MOD. lia. }
  rewrite Hs.
  destruct (Z.leb_spec (nanoseconds x) (nanoseconds e)) as [Hle | Hlt];
    cbn [seconds nanoseconds].
  - rewrite u32_small by (unfold U32_MOD; lia).
    repeat split; lia.
  - assert (Hb : u32 (1000000000 - nanoseconds x) = 1000000000 - nanoseconds x).
    { apply u32_small. unfold U32_MOD. lia. }
    rewrite Hb.
    rewrite (u32_small (seconds e - seconds x - 1)) by (unfold U32_MOD; lia).
    rewrite u32_small by (unfold U32_MOD; lia).
    repeat split; lia.
Qed.

(** Each unit-suffixed conversion yields the canonical form of exactly the
    requested time. *)
Lemma interval_of_s_exact s :
  in_u32 s ->
  normalized (interval_of_s s) /\ total_ns (interval_of_s s) = s * NS_PER_S.
Proof.
  unfold interval_of_s, normalized, total_ns, in_u32, NS_PER_S, U32_MOD.
  cbn [seconds nanoseconds]. intros H. repeat split; lia.
Qed.

Lemma interval_of_ms_exact ms :
  in_u32 ms ->
  normalized (interval_of_ms ms) /\
  total_ns (interval_of_ms ms) = ms * 1000000 /\
  seconds (interval_of_ms ms) = ms / 1000 /\
  nanoseconds (interval_of_ms ms) = (ms mod 1000) * 1000000.
Proof.
  unfold interval_of_ms, normalized, total_ns, in_u32, NS_PER_S, U32_MOD.
  cbn [seconds nanoseconds]. intros H.
  pose proof (Z.mod_pos_bound ms 1000 ltac:(lia)) as Hm.
  pose proof (Z.div_mod ms 1000 ltac:(lia)) as Hd.
  rewrite u32_small by (unfold U32_MOD; lia).
  repeat split; lia.
Qed.

Lemma interval_of_us_exact us :
  in_u32 us ->
  normalized (interval_of_us us) /\
  total_ns (interval_of_us us) = us * 1000 /\
  seconds (interval_of_us us) = us / 1000000 /\
  nanoseconds (interval_of_us us) = (us mod 1000000) * 1000.
Proof.
  unfold interval_of_us, normalized, total_ns, in_u32, NS_PER_S, U32_MOD.
  cbn [seconds nanoseconds]. intros H.
  pose proof (Z.mod_pos_bound us 1000000 ltac:(lia)) as Hm.
  pose proof (Z.div_mod us 1000000 ltac:(lia)) as Hd.
  rewrite u32_small by (unfold U32_MOD; lia).
  repeat split; lia.
Qed.

Lemma interval_of_ns_exact ns :
  in_u32 ns ->
  normalized (interval_of_ns ns) /\
  total_ns (interval_of_ns ns) = ns /\
  seconds (interval_of_ns ns) = ns / 1000000000 /\
  nanoseconds (interval_of_ns ns) = ns mod 1000000000.
Proof.
  unfold interval_of_ns, normalized, total_ns, in_u32, NS_PER_S, U32_MOD.
  cbn [seconds nanoseconds]. intros H.
  pose proof (Z.mod_pos_bound ns 1000000000 ltac:(lia)) as Hm.
  pose proof (Z.div_mod ns 1000000000 ltac:(lia)) as Hd.
  repeat split; lia.
Qed.

(* ------------------------------------------------------------------ *)
(** ** Operations on the heap *)

(** Inversion of a completed sequence: the first operation completed. *)
Ltac inv_bind_as H x :=
  match type of H with
  | bind ?r _ = Done _ =>
    let E := fresh "E" x in
    destruct r as [x | |] eqn:E; cbn [bind] in H;
    [ | discriminate H | discriminate H ]
  end.

Tactic Notation "inv_bind" hyp(H) "as" ident(x) := inv_bind_as H x.

(** A completed operation that changed nothing. *)
Ltac unchanged H Hrun := injection Hrun as <-; exact H.

Section Proofs.

Context {world tm_math : Type}.
Variable tm_initialize : Z -> tm_math.
Variable tm_get_diff : tm_math -> Z -> Z -> Z.

Local Abbreviation St := (state world tm_math).

Lemma load_timer_Done (p : addr) (s : St) t :
  load_timer p s = Done t <-> timers s !! p = Some t.
Proof.
  unfold load_timer. destruct (timers s !! p); split; intros H; congruence.
Qed.

Lemma load_ctx_Done (p : addr) (s : St) c :
  load_ctx p s = Done c <-> ctxs s !! p = Some c.
Proof.
  unfold load_ctx. destruct (ctxs s !! p); split; intros H; congruence.
Qed.

Lemma load_timer_store_eq (p : addr) t (s : St) :
  load_timer p (store_timer p t s) = Done t.
Proof. apply load_timer_Done. cbn. apply lookup_insert_eq. Qed.

Lemma store_timer_twice (p : addr) t t' (s : St) :
  store_timer p t' (store_timer p t s) = store_timer p t' s.
Proof. unfold store_timer. cbn. f_equal. apply insert_insert_eq. Qed.

Lemma start_and_checkpoint_timer_attached (p : addr) (w : world) (s : St) t ca cx :
  timers s !! p = Some t -> ctx t = Some ca -> ctxs s !! ca = Some cx ->
  start_and_checkpoint_timer p w s
  = Done (store_timer p
            (set_elapsed duration_zero
               (set_is_running true (set_checkpoint (sample cx w) t))) s).
Proof.
  intros Ht Hc Hx. unfold start_and_checkpoint_timer.
  apply load_timer_Done in Ht. apply load_ctx_Done in Hx.
  rewrite Ht. cbn [bind]. rewrite Hc, Hx. reflexivity.
Qed.

Lemma start_and_checkpoint_timer_detached (p : addr) (w : world) (s : St) t :
  timers s !! p = Some t -> ctx t = None ->
  start_and_checkpoint_timer p w s = Done s.
Proof.
  intros Ht Hc. unfold start_and_checkpoint_timer.
  apply load_timer_Done in Ht. rewrite Ht. cbn [bind]. rewrite Hc. reflexivity.
Qed.

Lemma restarted_store (p : addr) (s : St) t now x :
  timers s !! p = Some t ->
  restarted p now x s
    (store_timer p
       (set_expire_interval x
          (set_elapsed duration_zero
             (set_is_running true (set_checkpoint now t)))) s).
Proof.
  intros Ht. split; [reflexivity |]. split.
  - intros q Hq. cbn. apply lookup_insert_ne. congruence.
  - exists t. eexists. split; [exact Ht |].
    split; [cbn; apply lookup_insert_eq |].
    cbn. repeat split.
Qed.

(** The body shared by the five setters, on an attached timer. *)
Lemma setter_attached (p : addr) (w : world) (s : St) t ca cx d :
  timers s !! p = Some t -> ctx t = Some ca -> ctxs s !! ca = Some cx ->
  exists s',
    (let* s1 := start_and_checkpoint_timer p w s in write_expire_interval p d s1)
    = Done s' /\ restarted p (sample cx w) d s s'.
Proof.
  intros Ht Hc Hx.
  rewrite (start_and_checkpoint_timer_attached p w s t ca cx Ht Hc Hx).
  cbn [bind]. unfold write_expire_interval.
  rewrite load_timer_store_eq. cbn [bind]. rewrite store_timer_twice.
  eexists. split; [reflexivity |].
  apply restarted_store. exact Ht.
Qed.

(** The same body on a detached timer: only the interval is written. *)
Lemma setter_detached (p : addr) (w : world) (s : St) t d :
  timers s !! p = Some t -> ctx t = None ->
  (let* s1 := start_and_checkpoint_timer p w s in write_expire_interval p d s1)
  = Done (store_timer p (set_expire_interval d t) s).
Proof.
  intros Ht Hc.
  rewrite (start_and_checkpoint_timer_detached p w s t Ht Hc).
  cbn [bind]. unfold write_expire_interval.
  apply load_timer_Done in Ht. rewrite Ht. reflexivity.
Qed.

(** Whatever the attachment, a setter completes and stores its interval. *)
Lemma setter_stores (p : addr) (w : world) (s : St) t d :
  timers s !! p = Some t -> ctx_valid s t ->
  exists s' t',
    (let* s1 := start_and_checkpoint_timer p w s in write_expire_interval p d s1)
    = Done s' /\ timers s' !! p = Some t' /\ expire_interval t' = d.
Proof.
  intros Ht Hv. unfold ctx_valid in Hv.
  destruct (ctx t) as [ca |] eqn:Hc.
  - destruct Hv as [cx Hx].
    destruct (setter_attached p w s t ca cx d Ht Hc Hx)
      as (s' & Hs' & _ & _ & t0 & t' & _ & Ht' & _ & _ & _ & Hd & _).
    exists s', t'. auto.
  - rewrite (setter_detached p w s t d Ht Hc).
    eexists. eexists. split; [reflexivity |].
    split; [cbn; apply lookup_insert_eq | reflexivity].
Qed.

(* ------------------------------------------------------------------ *)
(** ** Start and the expiration setters *)


(** C8: every expiration setter leaves the expire interval in the canonical
    form, nanoseconds below 1_000_000_000, standing for exactly the time
    requested: seconds [s] and no nanoseconds; [ms / 1000] seconds and
    [(ms % 1000) * 1_000_000] nanoseconds; likewise for microseconds and
    nanoseconds; and a canonical duration is stored as it is. *)
Theorem setters_store_canonical_interval (p : addr) (w : world) (s : St) t :
  timers s !! p = Some t -> ctx_valid s t ->
  (forall x, in_u32 x -> exists s' t',
      stimer_expire_from_now_s (Some p) x w s = Done s' /\
      timers s' !! p = Some t' /\
      normalized (expire_interval t') /\
      total_ns (expire_interval t') = x * NS_PER_S /\
      seconds (expire_interval t') = x /\ nanoseconds (expire_interval t') = 0) /\
  (forall x, in_u32 x -> exists s' t',
      stimer_expire_from_now_ms (Some p) x w s = Done s' /\
      timers s' !! p = Some t' /\
      normalized (expire_interval t') /\
      total_ns (expire_interval t') = x * 1000000 /\
      seconds (expire_interval t') = x / 1000 /\
      nanoseconds (expire_interval t') = (x mod 1000) * 1000000) /\
  (forall x, in_u32 x -> exists s' t',
      stimer_expire_from_now_us (Some p) x w s = Done s' /\
      timers s' !! p = Some t' /\
      normalized (expire_interval t') /\
      total_ns (expire_interval t') = x * 1000 /\
      seconds (expire_interval t') = x / 1000000 /\
      nanoseconds (expire_interval t') = (x mod 1000000) * 1000) /\
  (forall x, in_u32 x -> exists s' t',
      stimer_expire_from_now_ns (Some p) x w s = Done s' /\
      timers s' !! p = Some t' /\
      normalized (expire_interval t') /\
      total_ns (expire_interval t') = x /\
      seconds (expire_interval t') = x / 1000000000 /\
      nanoseconds (expire_interval t') = x mod 1000000000) /\
  (forall d, normalized d -> exists s' t',
      stimer_expire_from_now (Some p) (Some d) w s = Done s' /\
      timers s' !! p = Some t' /\
      normalized (expire_interval t') /\ expire_interval t' = d).
Proof.
  intros Ht Hv.
  repeat split; intros x Hx.
  - destruct (setter_stores p w s t (interval_of_s x) Ht Hv) as (s' & t' & H1 & H2 & H3).
    exists s', t'. rewrite H3.
    destruct (interval_of_s_exact x Hx) as (? & ?).
    repeat split; try assumption; try reflexivity; apply H.
  - destruct (setter_stores p w s t (interval_of_ms x) Ht Hv) as (s' & t' & H1 & H2 & H3).
    exists s', t'. rewrite H3.
    destruct (interval_of_ms_exact x Hx) as (? & ? & ? & ?).
    repeat split; try assumption; try reflexivity; apply H.
  - destruct (setter_stores p w s t (interval_of_us x) Ht Hv) as (s' & t' & H1 & H2 & H3).
    exists s', t'. rewrite H3.
    destruct (interval_of_us_exact x Hx) as (? & ? & ? & ?).
    repeat split; try assumption; try reflexivity; apply H.
  - destruct (setter_stores p w s t (interval_of_ns x) Ht Hv) as (s' & t' & H1 & H2 & H3).
    exists s', t'. rewrite H3.
    destruct (interval_of_ns_exact x Hx) as (? & ? & ? & ?).
    repeat split; try assumption; try reflexivity; apply H.
  - destruct (setter_stores p w s t x Ht Hv) as (s' & t' & H1 & H2 & H3).
    exists s', t'. rewrite H3.
    repeat split; try assumption; try reflexivity; apply Hx.
Qed.

(* ------------------------------------------------------------------ *)
(** ** Absent references *)

(** C9: with an absent ([NULL]) context or timer, every public operation
    completes, without a fault and whatever its iteration budget, and leaves
    the whole heap as it was; the functions that return a value return the
    default ([NULL] for [stimer_alloc], false for [stimer_is_expired]) and
    [stimer_get_elapsed_time] leaves the caller's duration as it was. *)
Theorem null_reference_is_noop (w : world) (s : St) :
  (forall fuel, stimer_free_context fuel None s = Done s) /\
  (forall fuel, stimer_execute_context tm_get_diff fuel None w s = Done s) /\
  (forall ok, stimer_alloc ok None s = Done (s, None)) /\
  (forall fuel, stimer_free fuel None s = Done s) /\
  stimer_start None w s = Done s /\
  stimer_stop tm_get_diff None w s = Done s /\
  (forall t, stimer_get_elapsed_time tm_get_diff None t w s = Done (s, t)) /\
  (forall t, stimer_expire_from_now None t w s = Done s) /\
  (forall ts, stimer_expire_from_now ts None w s = Done s) /\
  (forall x, stimer_expire_from_now_s None x w s = Done s) /\
  (forall x, stimer_expire_from_now_ms None x w s = Done s) /\
  (forall x, stimer_expire_from_now_us None x w s = Done s) /\
  (forall x, stimer_expire_from_now_ns None x w s = Done s) /\
  stimer_is_expired tm_get_diff None w s = Done (s, false) /\
  stimer_restart_from_now None w s = Done s /\
  stimer_advance tm_get_diff None w s = Done s.
Proof.
  repeat split; try reflexivity.
  intros [p |]; reflexivity.
Qed.

(* ------------------------------------------------------------------ *)
(** ** Detached timers *)

Lemma advance_and_checkpoint_2_detached (p : addr) (w : world) (s : St) t :
  timers s !! p = Some t -> ctx t = None ->
  advance_and_checkpoint_2 tm_get_diff p w s = Done s.
Proof.
  intros Ht Hc. unfold advance_and_checkpoint_2.
  apply load_timer_Done in Ht. rewrite Ht. cbn [bind]. rewrite Hc. reflexivity.
Qed.

(** C4 (as amended): on a timer whose context pointer is [NULL], the two
    queries return the last known state and change nothing; [stimer_start],
    [stimer_stop] and [stimer_restart_from_now] change nothing; the
    expiration setters write their interval into the expire interval and
    leave elapsed, checkpoint and running flag as they were; [stimer_advance]
    leaves checkpoint, running flag and expire interval as they were, and
    changes nothing at all when the timer is stopped. *)
Theorem detached_timer_inert (p : addr) (w : world) (s : St) (t : stimer) :
  timers s !! p = Some t -> ctx t = None ->
  (forall d, stimer_get_elapsed_time tm_get_diff (Some p) (Some d) w s
             = Done (s, Some (elapsed t))) /\
  stimer_is_expired tm_get_diff (Some p) w s
  = Done (s, timer_duration_ge (elapsed t) (expire_interval t)) /\
  stimer_start (Some p) w s = Done s /\
  stimer_stop tm_get_diff (Some p) w s = Done s /\
  stimer_restart_from_now (Some p) w s = Done s /\
  (exists s' t',
      stimer_advance tm_get_diff (Some p) w s = Done s' /\
      timers s' !! p = Some t' /\
      checkpoint t' = checkpoint t /\ is_running t' = is_running t /\
      expire_interval t' = expire_interval t /\
      (is_running t = false -> s' = s)) /\
  (forall d, stimer_expire_from_now (Some p) (Some d) w s
             = Done (store_timer p (set_expire_interval d t) s)) /\
  (forall x, stimer_expire_from_now_s (Some p) x w s
             = Done (store_timer p (set_expire_interval (interval_of_s x) t) s)) /\
  (forall x, stimer_expire_from_now_ms (Some p) x w s
             = Done (store_timer p (set_expire_interval (interval_of_ms x) t) s)) /\
  (forall x, stimer_expire_from_now_us (Some p) x w s
             = Done (store_timer p (set_expire_interval (interval_of_us x) t) s)) /\
  (forall x, stimer_expire_from_now_ns (Some p) x w s
             = Done (store_timer p (set_expire_interval (interval_of_ns x) t) s)).
Proof.
  intros Ht Hc.
  pose proof Ht as Hl. apply load_timer_Done in Hl.
  repeat split.
  - intros d. unfold stimer_get_elapsed_time. rewrite Hl. cbn [bind].
    rewrite Hc. destruct (is_running t); cbn [bind]; rewrite Hl; reflexivity.
  - unfold stimer_is_expired.
    rewrite (advance_and_checkpoint_2_detached p w s t Ht Hc).
    cbn [bind]. rewrite Hl. reflexivity.
  - apply (start_and_checkpoint_timer_detached p w s t Ht Hc).
  - unfold stimer_stop. rewrite Hl. cbn [bind]. rewrite Hc. reflexivity.
  - unfold stimer_restart_from_now. rewrite Hl. cbn [bind].
    destruct (is_running t); [| reflexivity].
    apply (start_and_checkpoint_timer_detached p w s t Ht Hc).
  - unfold stimer_advance. rewrite Hl. cbn [bind].
    destruct (is_running t) eqn:Hr.
    + rewrite (advance_and_checkpoint_2_detached p w s t Ht Hc).
      cbn [bind]. rewrite Hl. cbn [bind].
      destruct (timer_duration_ge (elapsed t) (expire_interval t));
        (eexists; eexists; split; [reflexivity |];
         split; [cbn; apply lookup_insert_eq |];
         cbn; repeat split; try assumption; discriminate).
    + exists s, t. repeat split; assumption.
  - intros d. apply (setter_detached p w s t d Ht Hc).
  - intros x. apply (setter_detached p w s t _ Ht Hc).
  - intros x. apply (setter_detached p w s t _ Ht Hc).
  - intros x. apply (setter_detached p w s t _ Ht Hc).
  - intros x. apply (setter_detached p w s t _ Ht Hc).
Qed.

(* ------------------------------------------------------------------ *)
(** ** The periodic advance *)

(** C1 (as amended): when a running timer's elapsed time, after the
    on-demand advance-and-checkpoint, is below its expire interval,
    [stimer_advance] completes and, after that advance, resets the elapsed
    time to zero; the checkpoint set by the advance, the expire interval, the
    running flag, the links and the rest of the heap are those the advance
    left. *)
Theorem stimer_advance_not_expired (p : addr) (w : world) (s s1 : St) t t1 :
  timers s !! p = Some t -> is_running t = true ->
  advance_and_checkpoint_2 tm_get_diff p w s = Done s1 ->
  timers s1 !! p = Some t1 ->
  timer_duration_ge (elapsed t1) (expire_interval t1) = false ->
  exists s2 t2,
    stimer_advance tm_get_diff (Some p) w s = Done s2 /\
    timers s2 !! p = Some t2 /\
    elapsed t2 = duration_zero /\
    checkpoint t2 = checkpoint t1 /\
    expire_interval t2 = expire_interval t1 /\
    is_running t2 = is_running t1 /\
    ctx t2 = ctx t1 /\ next t2 = next t1 /\
    ctxs s2 = ctxs s1 /\
    (forall q, q <> p -> timers s2 !! q = timers s1 !! q).
Proof.
  intros Ht Hr Ha Ht1 Hge.
  apply load_timer_Done in Ht. apply load_timer_Done in Ht1.
  unfold stimer_advance. rewrite Ht. cbn [bind]. rewrite Hr, Ha. cbn [bind].
  rewrite Ht1. cbn [bind]. rewrite Hge.
  eexists. eexists. split; [reflexivity |].
  split; [cbn; apply lookup_insert_eq |].
  cbn. repeat split.
  intros q Hq. apply lookup_insert_ne. congruence.
Qed.

(** C2 (as amended): when the expire interval of a running timer is
    canonical (nanoseconds below 1_000_000_000) and its elapsed time, after
    the on-demand advance-and-checkpoint, has reached that interval,
    [stimer_advance] completes and takes exactly one expire interval off the
    elapsed time, with a borrow of one second when the elapsed nanoseconds
    are fewer than the interval's: the new elapsed time is the old one minus
    the interval, so the overshoot is kept and nothing is zeroed; everything
    else is as the advance left it. *)
Theorem stimer_advance_expired (p : addr) (w : world) (s s1 : St) t t1 :
  timers s !! p = Some t -> is_running t = true ->
  advance_and_checkpoint_2 tm_get_diff p w s = Done s1 ->
  timers s1 !! p = Some t1 ->
  duration_u32 (elapsed t1) -> normalized (expire_interval t1) ->
  timer_duration_ge (elapsed t1) (expire_interval t1) = true ->
  exists s2 t2,
    stimer_advance tm_get_diff (Some p) w s = Done s2 /\
    timers s2 !! p = Some t2 /\
    total_ns (elapsed t2) = total_ns (elapsed t1) - total_ns (expire_interval t1) /\
    (if nanoseconds (elapsed t1) <? nanoseconds (expire_interval t1) then
       seconds (elapsed t2)
       = seconds (elapsed t1) - seconds (expire_interval t1) - 1 /\
       nanoseconds (elapsed t2)
       = nanoseconds (elapsed t1) + NS_PER_S - nanoseconds (expire_interval t1)
     else
       seconds (elapsed t2) = seconds (elapsed t1) - seconds (expire_interval t1) /\
       nanoseconds (elapsed t2)
       = nanoseconds (elapsed t1) - nanoseconds (expire_interval t1)) /\
    duration_u32 (elapsed t2) /\
    (normalized (elapsed t1) -> normalized (elapsed t2)) /\
    checkpoint t2 = checkpoint t1 /\
    expire_interval t2 = expire_interval t1 /\
    is_running t2 = is_running t1 /\
    ctx t2 = ctx t1 /\ next t2 = next t1 /\
    ctxs s2 = ctxs s1 /\
    (forall q, q <> p -> timers s2 !! q = timers s1 !! q).
Proof.
  intros Ht Hr Ha Ht1 Hu Hn Hge.
  apply load_timer_Done in Ht. apply load_timer_Done in Ht1.
  unfold stimer_advance. rewrite Ht. cbn [bind]. rewrite Hr, Ha. cbn [bind].
  rewrite Ht1. cbn [bind]. rewrite Hge.
  destruct (subtract_interval_exact _ _ Hu Hn Hge) as (Htot & Hu2 & Hn2).
  eexists. eexists. split; [reflexivity |].
  split; [cbn; apply lookup_insert_eq |].
  cbn [elapsed set_elapsed checkpoint expire_interval is_running ctx next ctxs
       timers store_timer].
  split; [exact Htot |].
  split.
  { clear Htot Hu2 Hn2.
    destruct Hu as [[He0 He1] [Hn0 Hn1]]. destruct Hn as [[Hx0 Hx1] Hxn].
    apply timer_duration_ge_true in Hge.
    unfold subtract_interval, in_u32, NS_PER_S, U32_MOD in *.
    destruct (Z.ltb_spec (nanoseconds (elapsed t1)) (nanoseconds (expire_interval t1)));
      destruct (Z.leb_spec (nanoseconds (expire_interval t1)) (nanoseconds (elapsed t1)));
      try lia; cbn [seconds nanoseconds].
    - rewrite (u32_small (seconds (elapsed t1) - _)) by (unfold U32_MOD; lia).
      rewrite (u32_small (1000000000 - _)) by (unfold U32_MOD; lia).
      rewrite !u32_small by (unfold U32_MOD; lia). lia.
    - rewrite !u32_small by (unfold U32_MOD; lia). lia. }
  split; [exact Hu2 |]. split; [exact Hn2 |].
  do 6 (split; [reflexivity |]).
  intros q Hq. apply lookup_insert_ne. congruence.
Qed.

(* ------------------------------------------------------------------ *)
(** ** Frame: what the operations on other timers and on the links keep *)

Section Frame.

(** A property of the heap that depends on timer [p] through its timing
    fields only, and on the contexts through their configuration only. *)
Variable p : addr.
Variable Inv : St -> Prop.
Hypothesis Inv_store_ne : forall (q : addr) t (s : St),
  q <> p -> Inv s -> Inv (store_timer q t s).
Hypothesis Inv_store_links : forall (q : addr) t t' (s : St),
  timers s !! q = Some t -> timing t' = timing t ->
  Inv s -> Inv (store_timer q t' s).
Hypothesis Inv_store_root : forall (ca : addr) cx v (s : St),
  ctxs s !! ca = Some cx -> Inv s -> Inv (store_ctx ca (set_root v cx) s).
Hypothesis Inv_live : forall (s : St), Inv s -> is_Some (timers s !! p).

Lemma start_and_checkpoint_timer_frame (q : addr) (w : world) (s s' : St) :
  q <> p -> Inv s ->
  start_and_checkpoint_timer q w s = Done s' -> Inv s'.
Proof.
  intros Hq H Hrun. unfold start_and_checkpoint_timer in Hrun.
  inv_bind Hrun as t. destruct (ctx t) as [ca |]; [| unchanged H Hrun].
  inv_bind Hrun as cx. injection Hrun as <-.
  apply Inv_store_ne; assumption.
Qed.

Lemma setter_frame (q : addr) (w : world) d (s s' : St) :
  q <> p -> Inv s ->
  (let* s1 := start_and_checkpoint_timer q w s in write_expire_interval q d s1)
  = Done s' ->
  Inv s'.
Proof.
  intros Hq H Hrun. inv_bind Hrun as s1.
  unfold write_expire_interval in Hrun.
  inv_bind Hrun as t. injection Hrun as <-.
  apply Inv_store_ne; [exact Hq |].
  eapply start_and_checkpoint_timer_frame; eauto.
Qed.

Lemma unlink_search_frame fuel : forall ts nxt prev (s s' : St),
  Inv s ->
  unlink_search fuel ts nxt prev s = Done s' ->
  Inv s'.
Proof.
  induction fuel as [| fuel IH]; intros ts nxt prev s s' H Hrun;
    destruct prev as [q |]; cbn [unlink_search] in Hrun;
    try discriminate; try (unchanged H Hrun).
  inv_bind Hrun as t. apply load_timer_Done in Et.
  destruct (decide (next t = Some ts)).
  - injection Hrun as <-.
    eapply Inv_store_links; [exact Et | reflexivity | exact H].
  - eapply IH; eauto.
Qed.

(** Unlinking touches link fields only, also those of [p] itself. *)
Lemma unlink_timer_frame fuel (q : addr) (s s' : St) :
  Inv s ->
  unlink_timer fuel q s = Done s' ->
  Inv s'.
Proof.
  intros H Hrun. unfold unlink_timer in Hrun.
  inv_bind Hrun as t. apply load_timer_Done in Et.
  assert (H1 : Inv (store_timer q (set_ctx None (set_next None t)) s)).
  { eapply Inv_store_links; [exact Et | reflexivity | exact H]. }
  destruct (ctx t) as [ca |]; [| unchanged H1 Hrun].
  inv_bind Hrun as cx. apply load_ctx_Done in Ecx.
  destruct (decide (root cx = Some q)).
  - injection Hrun as <-. apply Inv_store_root; assumption.
  - eapply unlink_search_frame; eauto.
Qed.

Lemma free_context_loop_frame fuel : forall inner ca (s s' : St),
  Inv s ->
  free_context_loop fuel inner ca s = Done s' ->
  Inv s'.
Proof.
  induction fuel as [| fuel IH]; intros inner ca s s' H Hrun;
    cbn [free_context_loop] in Hrun; inv_bind Hrun as cx;
    destruct (root cx) as [r |]; try discriminate; try (unchanged H Hrun).
  inv_bind Hrun as s1. eapply IH; [| exact Hrun].
  eapply unlink_timer_frame; eauto.
Qed.

Lemma link_timer_frame (ca q : addr) (s s' : St) :
  q <> p -> Inv s ->
  link_timer ca q s = Done s' -> Inv s'.
Proof.
  intros Hq H Hrun. unfold link_timer in Hrun.
  inv_bind Hrun as t. inv_bind Hrun as cx. inv_bind Hrun as t1.
  destruct (root cx) as [r |]; inv_bind Hrun as cx2; injection Hrun as <-;
    apply load_ctx_Done in Ecx2;
    (apply Inv_store_root; [exact Ecx2 |]);
    (repeat (apply Inv_store_ne; [exact Hq |])); exact H.
Qed.

Lemma fresh_timer_frame (s : St) :
  Inv s -> fresh (dom (timers s)) <> p.
Proof.
  intros H Heq. apply (is_fresh (dom (timers s))). rewrite Heq.
  apply elem_of_dom. apply Inv_live. exact H.
Qed.

Lemma stimer_alloc_frame ok c (s : St) r :
  Inv s -> stimer_alloc ok c s = Done r -> Inv (fst r).
Proof.
  intros H Hrun. unfold stimer_alloc in Hrun.
  destruct c as [ca |]; [| injection Hrun as <-; exact H].
  destruct ok; [| injection Hrun as <-; exact H].
  inv_bind Hrun as s2. injection Hrun as <-. cbn [fst].
  pose proof (fresh_timer_frame s H) as Hne.
  eapply link_timer_frame; [exact Hne | | exact Es2].
  apply Inv_store_ne; assumption.
Qed.

End Frame.

(* ------------------------------------------------------------------ *)
(** ** A stopped timer keeps its timing fields *)

Section Stopped.

Variable p : addr.
Variable k : Z * stimer_duration * stimer_duration * bool.
Hypothesis k_stopped : snd k = false.

Lemma has_timing_store_ne (q : addr) t (s : St) :
  q <> p -> has_timing p k s -> has_timing p k (store_timer q t s).
Proof.
  intros Hq (t0 & Ht0 & Hk). exists t0. split; [| exact Hk].
  cbn. rewrite lookup_insert_ne by congruence. exact Ht0.
Qed.

Lemma has_timing_store_links (q : addr) t t' (s : St) :
  timers s !! q = Some t -> timing t' = timing t ->
  has_timing p k s -> has_timing p k (store_timer q t' s).
Proof.
  intros Ht Hsame H. destruct (decide (q = p)) as [-> | Hq].
  - destruct H as (t0 & Ht0 & Hk). exists t'.
    split; [cbn; apply lookup_insert_eq |]. congruence.
  - apply has_timing_store_ne; assumption.
Qed.

Lemma has_timing_store_root (ca : addr) (cx : stimer_ctx world tm_math) v (s : St) :
  ctxs s !! ca = Some cx -> has_timing p k s ->
  has_timing p k (store_ctx ca (set_root v cx) s).
Proof. intros _ H. exact H. Qed.

Lemma has_timing_live (s : St) : has_timing p k s -> is_Some (timers s !! p).
Proof. intros (t & Ht & _). eauto. Qed.

Lemma has_timing_running (s : St) t :
  has_timing p k s -> timers s !! p = Some t -> is_running t = false.
Proof.
  intros (t0 & Ht0 & Hk) Ht. rewrite Ht in Ht0. injection Ht0 as ->.
  rewrite <- Hk in k_stopped. exact k_stopped.
Qed.

Lemma has_timing_not_running (q : addr) (s : St) t :
  has_timing p k s -> timers s !! q = Some t -> is_running t = true -> q <> p.
Proof.
  intros H Ht Hr ->. rewrite (has_timing_running s t H Ht) in Hr. discriminate.
Qed.

Lemma advance_and_checkpoint_stopped (q : addr) tmv now (s s' : St) :
  has_timing p k s ->
  advance_and_checkpoint tm_get_diff q tmv now s = Done s' ->
  has_timing p k s'.
Proof.
  intros H Hrun. unfold advance_and_checkpoint in Hrun.
  inv_bind Hrun as t. apply load_timer_Done in Et.
  destruct (is_running t) eqn:Hr; [| unchanged H Hrun].
  destruct (0 <? _); [| unchanged H Hrun].
  destruct (ctx t) as [ca |]; [| discriminate].
  inv_bind Hrun as cx. injection Hrun as <-.
  apply has_timing_store_ne; [| exact H].
  eapply has_timing_not_running; eauto.
Qed.

Lemma advance_and_checkpoint_2_stopped (q : addr) (w : world) (s s' : St) :
  has_timing p k s ->
  advance_and_checkpoint_2 tm_get_diff q w s = Done s' ->
  has_timing p k s'.
Proof.
  intros H Hrun. unfold advance_and_checkpoint_2 in Hrun.
  inv_bind Hrun as t.
  destruct (ctx t) as [ca |]; [| unchanged H Hrun].
  inv_bind Hrun as cx. eapply advance_and_checkpoint_stopped; eauto.
Qed.

Lemma sweep_stopped fuel : forall tmv now ts (s s' : St),
  has_timing p k s ->
  sweep tm_get_diff fuel tmv now ts s = Done s' ->
  has_timing p k s'.
Proof.
  induction fuel as [| fuel IH]; intros tmv now ts s s' H Hrun;
    destruct ts as [q |]; cbn [sweep] in Hrun;
    try discriminate; try (unchanged H Hrun).
  inv_bind Hrun as s1. inv_bind Hrun as t.
  eapply IH; [| exact Hrun].
  eapply advance_and_checkpoint_stopped; eauto.
Qed.

Ltac framed :=
  eauto using has_timing_store_ne, has_timing_store_links,
    has_timing_store_root, has_timing_live.

Lemma start_and_checkpoint_timer_other (q : addr) (w : world) (s s' : St) :
  q <> p -> has_timing p k s ->
  start_and_checkpoint_timer q w s = Done s' -> has_timing p k s'.
Proof.
  intros; eapply start_and_checkpoint_timer_frame with (Inv := has_timing p k); framed.
Qed.

Lemma setter_other (q : addr) (w : world) d (s s' : St) :
  q <> p -> has_timing p k s ->
  (let* s1 := start_and_checkpoint_timer q w s in write_expire_interval q d s1)
  = Done s' ->
  has_timing p k s'.
Proof.
  intros; eapply setter_frame with (Inv := has_timing p k); framed.
Qed.

Lemma unlink_timer_timing fuel (q : addr) (s s' : St) :
  has_timing p k s ->
  unlink_timer fuel q s = Done s' ->
  has_timing p k s'.
Proof.
  intros; eapply unlink_timer_frame with (Inv := has_timing p k); framed.
Qed.

Lemma free_context_loop_timing fuel inner ca (s s' : St) :
  has_timing p k s ->
  free_context_loop fuel inner ca s = Done s' ->
  has_timing p k s'.
Proof.
  intros; eapply free_context_loop_frame with (Inv := has_timing p k); framed.
Qed.

Lemma stimer_alloc_timing ok c (s : St) r :
  has_timing p k s -> stimer_alloc ok c s = Done r -> has_timing p k (fst r).
Proof.
  intros; eapply stimer_alloc_frame with (Inv := has_timing p k); framed.
Qed.

Ltac null_or q H Hrun := destruct q as [q |]; [| unchanged H Hrun].

Ltac other_started Hst :=
  cbn [starts] in Hst; apply bool_decide_eq_false in Hst; congruence.

(** Every call that neither starts nor frees a stopped timer leaves its
    timing fields as they are. *)
Lemma exec_stopped (w : world) (c : call world) (s s' : St) :
  has_timing p k s -> keeps_stopped p c = true ->
  exec tm_initialize tm_get_diff w c s = Done s' ->
  has_timing p k s'.
Proof.
  intros H Hc Hrun.
  unfold keeps_stopped in Hc. apply andb_prop in Hc as [Hst Hfr].
  apply negb_true_iff in Hst. apply negb_true_iff in Hfr.
  destruct c; cbn [exec] in Hrun.
  - (* stimer_alloc_context *)
    unfold stimer_alloc_context, drop_value in Hrun.
    destruct ok; cbn [bind fst] in Hrun; unchanged H Hrun.
  - (* stimer_free_context *)
    unfold stimer_free_context in Hrun. null_or c H Hrun.
    inv_bind Hrun as s1. injection Hrun as <-.
    eapply free_context_loop_timing in Es1; [| exact H]. exact Es1.
  - (* stimer_execute_context *)
    unfold stimer_execute_context in Hrun. null_or c H Hrun.
    inv_bind Hrun as cx. eapply sweep_stopped; eauto.
  - (* stimer_alloc *)
    unfold stimer_alloc, drop_value in Hrun.
    inv_bind Hrun as r. injection Hrun as <-.
    eapply stimer_alloc_timing; eauto.
  - (* stimer_free *)
    unfold stimer_free in Hrun. null_or ts H Hrun.
    cbn [frees] in Hfr. apply bool_decide_eq_false in Hfr.
    inv_bind Hrun as s1. injection Hrun as <-.
    eapply unlink_timer_timing in Es1; [| exact H].
    destruct Es1 as (t & Ht & Hk). exists t. split; [| exact Hk].
    cbn. rewrite lookup_delete_ne by congruence. exact Ht.
  - (* stimer_start *)
    unfold stimer_start in Hrun. null_or ts H Hrun.
    eapply start_and_checkpoint_timer_other; [| exact H | exact Hrun].
    other_started Hst.
  - (* stimer_stop *)
    unfold stimer_stop in Hrun. null_or ts H Hrun.
    inv_bind Hrun as t. apply load_timer_Done in Et.
    destruct (ctx t) as [ca |]; [| unchanged H Hrun].
    destruct (is_running t) eqn:Hr; [| unchanged H Hrun].
    inv_bind Hrun as cx. inv_bind Hrun as s1. inv_bind Hrun as t1.
    injection Hrun as <-.
    apply has_timing_store_ne.
    + eapply has_timing_not_running; eauto.
    + eapply advance_and_checkpoint_stopped; eauto.
  - (* stimer_get_elapsed_time *)
    unfold stimer_get_elapsed_time, drop_value in Hrun.
    destruct ts as [q |]; [| cbn [bind fst] in Hrun; unchanged H Hrun].
    inv_bind Hrun as r. inv_bind Er as tr. inv_bind Er as s1. inv_bind Er as tr1.
    destruct t; [| discriminate]. injection Er as <-.
    cbn [fst] in Hrun. injection Hrun as <-.
    destruct (is_running tr); [| unchanged H Es1].
    destruct (ctx tr) as [ca |]; [| unchanged H Es1].
    inv_bind Es1 as cx. eapply advance_and_checkpoint_stopped; eauto.
  - (* stimer_expire_from_now *)
    unfold stimer_expire_from_now in Hrun. null_or ts H Hrun.
    destruct t as [d |]; [| unchanged H Hrun].
    eapply setter_other; [| exact H | exact Hrun]. other_started Hst.
  - unfold stimer_expire_from_now_s in Hrun. null_or ts H Hrun.
    eapply setter_other; [| exact H | exact Hrun]. other_started Hst.
  - unfold stimer_expire_from_now_ms in Hrun. null_or ts H Hrun.
    eapply setter_other; [| exact H | exact Hrun]. other_started Hst.
  - unfold stimer_expire_from_now_us in Hrun. null_or ts H Hrun.
    eapply setter_other; [| exact H | exact Hrun]. other_started Hst.
  - unfold stimer_expire_from_now_ns in Hrun. null_or ts H Hrun.
    eapply setter_other; [| exact H | exact Hrun]. other_started Hst.
  - (* stimer_is_expired *)
    unfold stimer_is_expired, drop_value in Hrun.
    destruct ts as [q |]; [| cbn [bind fst] in Hrun; unchanged H Hrun].
    inv_bind Hrun as r. inv_bind Er as s1. inv_bind Er as t. injection Er as <-.
    cbn [fst] in Hrun. injection Hrun as <-.
    eapply advance_and_checkpoint_2_stopped; eauto.
  - (* stimer_restart_from_now *)
    unfold stimer_restart_from_now in Hrun. null_or ts H Hrun.
    inv_bind Hrun as t. apply load_timer_Done in Et.
    destruct (is_running t) eqn:Hr; [| unchanged H Hrun].
    eapply start_and_checkpoint_timer_other; [| exact H | exact Hrun].
    eapply has_timing_not_running; eauto.
  - (* stimer_advance *)
    unfold stimer_advance in Hrun. null_or ts H Hrun.
    inv_bind Hrun as t. apply load_timer_Done in Et.
    destruct (is_running t) eqn:Hr; [| unchanged H Hrun].
    assert (Hq : ts <> p) by (eapply has_timing_not_running; eauto).
    inv_bind Hrun as s1. inv_bind Hrun as t1.
    assert (H1 : has_timing p k s1)
      by (eapply advance_and_checkpoint_2_stopped; eauto).
    destruct (timer_duration_ge _ _); injection Hrun as <-;
      apply has_timing_store_ne; assumption.
Qed.

Lemma run_stopped prog : forall (s s' : St),
  has_timing p k s ->
  Forall (fun wc => keeps_stopped p (snd wc) = true) prog ->
  run tm_initialize tm_get_diff prog s = Done s' ->
  has_timing p k s'.
Proof.
  induction prog as [| [w c] prog IH]; intros s s' H Hall Hrun; cbn [run] in Hrun.
  - unchanged H Hrun.
  - inversion Hall as [| ? ? Hc Hrest]; subst. cbn [snd] in Hc.
    inv_bind Hrun as s1. eapply IH; [| exact Hrest | exact Hrun].
    eapply exec_stopped; eauto.
Qed.

End Stopped.

Lemma advance_and_checkpoint_idle (q : addr) tmv now (s : St) t :
  timers s !! q = Some t -> is_running t = false ->
  advance_and_checkpoint tm_get_diff q tmv now s = Done s.
Proof.
  intros Ht Hr. unfold advance_and_checkpoint.
  apply load_timer_Done in Ht. rewrite Ht. cbn [bind]. rewrite Hr. reflexivity.
Qed.

Lemma advance_and_checkpoint_2_idle (q : addr) (w : world) (s s1 : St) t :
  timers s !! q = Some t -> is_running t = false ->
  advance_and_checkpoint_2 tm_get_diff q w s = Done s1 -> s1 = s.
Proof.
  intros Ht Hr Hrun. unfold advance_and_checkpoint_2 in Hrun.
  inv_bind Hrun as t0. destruct (ctx t0) as [ca |]; [| congruence].
  inv_bind Hrun as cx.
  rewrite (advance_and_checkpoint_idle q _ _ s t Ht Hr) in Hrun. congruence.
Qed.

(** On a valid context pointer the on-demand advance of an idle timer
    completes. *)
Lemma advance_and_checkpoint_2_idle_done (q : addr) (w : world) (s : St) t :
  timers s !! q = Some t -> is_running t = false -> ctx_valid s t ->
  advance_and_checkpoint_2 tm_get_diff q w s = Done s.
Proof.
  intros Ht Hr Hv. unfold advance_and_checkpoint_2.
  pose proof Ht as Hl. apply load_timer_Done in Hl. rewrite Hl. cbn [bind].
  unfold ctx_valid in Hv. destruct (ctx t) as [ca |]; [| reflexivity].
  destruct Hv as [cx Hx]. apply load_ctx_Done in Hx. rewrite Hx. cbn [bind].
  apply (advance_and_checkpoint_idle q _ _ s t Ht Hr).
Qed.

(* ------------------------------------------------------------------ *)
(** ** Stop freezes the elapsed time *)

(** C5: once [stimer_stop] has completed and the running flag is cleared,
    every later [stimer_get_elapsed_time], after any sequence of calls of the
    interface (context sweeps, queries, calls on other timers, ...) made in
    any environments, hence whatever the raw counter does, completes and
    returns the elapsed time recorded at the stop, as long as no
    [stimer_start] or expiration setter restarts the timer (and the timer is
    not freed). *)
Theorem stop_freezes_elapsed (p : addr) (w0 : world) (s s0 s' : St) t0
    (prog : list (world * call world)) :
  stimer_stop tm_get_diff (Some p) w0 s = Done s0 ->
  timers s0 !! p = Some t0 -> is_running t0 = false ->
  Forall (fun wc => keeps_stopped p (snd wc) = true) prog ->
  run tm_initialize tm_get_diff prog s0 = Done s' ->
  forall w d,
    stimer_get_elapsed_time tm_get_diff (Some p) (Some d) w s'
    = Done (s', Some (elapsed t0)).
Proof.
  intros _ Ht0 Hr Hall Hrun w d.
  assert (H0 : has_timing p (timing t0) s0) by (exists t0; auto).
  assert (Hk : snd (timing t0) = false) by exact Hr.
  destruct (run_stopped p (timing t0) Hk prog s0 s' H0 Hall Hrun) as (t' & Ht' & Hsame).
  unfold timing in Hsame. injection Hsame as Hcp Hx He Hrun'.
  apply load_timer_Done in Ht'.
  unfold stimer_get_elapsed_time. rewrite Ht'. cbn [bind].
  rewrite Hrun', Hr. cbn [bind]. rewrite Ht'. cbn [bind]. rewrite He. reflexivity.
Qed.

(* ------------------------------------------------------------------ *)
(** ** A fresh timer *)

Lemma stimer_alloc_fresh ok c (s s' : St) (p : addr) :
  stimer_alloc ok c s = Done (s', Some p) ->
  exists ca cx t,
    c = Some ca /\ ctxs s !! ca = Some cx /\
    ctxs s' !! ca = Some (set_root (Some p) cx) /\
    timers s' !! p = Some t /\
    timing t = (0, duration_zero, duration_zero, false) /\
    ctx t = Some ca.
Proof.
  intros Hrun. unfold stimer_alloc in Hrun.
  destruct c as [ca |]; [| discriminate].
  destruct ok; [| discriminate].
  inv_bind Hrun as s2. injection Hrun as <- <-.
  unfold link_timer in Es2.
  rewrite load_timer_store_eq in Es2. cbn [bind] in Es2.
  inv_bind Es2 as cx. rewrite load_timer_store_eq in Es2. cbn [bind] in Es2.
  assert (Hx : ctxs s !! ca = Some cx) by (apply load_ctx_Done in Ecx; exact Ecx).
  exists ca, cx.
  destruct (root cx) as [r |]; inv_bind Es2 as cx2; injection Es2 as <-;
    apply load_ctx_Done in Ecx2; cbn in Ecx2;
    rewrite Hx in Ecx2; injection Ecx2 as <-;
    (eexists; split; [reflexivity |]; split; [exact Hx |];
     split; [cbn; apply lookup_insert_eq |];
     split; [cbn; apply lookup_insert_eq |]; split; reflexivity).
Qed.

(** C10: a timer just returned by [stimer_alloc] has zero elapsed time, a
    zero expire interval and is stopped; [stimer_is_expired] on it completes
    and returns true, without changing anything; and as long as neither
    [stimer_start] nor an expiration setter is called on it (nor
    [stimer_free]), whatever else is called, [stimer_is_expired] returns
    true whenever it completes. *)
Theorem fresh_timer_is_expired ok c (s s' : St) (p : addr) :
  stimer_alloc ok c s = Done (s', Some p) ->
  (exists t, timers s' !! p = Some t /\
             elapsed t = duration_zero /\ expire_interval t = duration_zero /\
             is_running t = false) /\
  (forall w, stimer_is_expired tm_get_diff (Some p) w s' = Done (s', true)) /\
  (forall prog s2,
      Forall (fun wc => keeps_stopped p (snd wc) = true) prog ->
      run tm_initialize tm_get_diff prog s' = Done s2 ->
      forall w s3 b,
        stimer_is_expired tm_get_diff (Some p) w s2 = Done (s3, b) ->
        s3 = s2 /\ b = true).
Proof.
  intros Halloc.
  destruct (stimer_alloc_fresh ok c s s' p Halloc)
    as (ca & cx & t & -> & Hx & Hx' & Ht & Hk & Hc).
  pose proof Hk as Hk'. unfold timing in Hk'. injection Hk' as Hcp Hxi He Hr.
  split; [exists t; auto |]. split.
  - intros w. unfold stimer_is_expired.
    rewrite (advance_and_checkpoint_2_idle_done p w s' t Ht Hr).
    + cbn [bind]. apply load_timer_Done in Ht. rewrite Ht. cbn [bind].
      rewrite He, Hxi. reflexivity.
    + unfold ctx_valid. rewrite Hc. eauto.
  - intros prog s2 Hall Hrun w s3 b Hexp.
    assert (H0 : has_timing p (0, duration_zero, duration_zero, false) s')
      by (exists t; auto).
    destruct (run_stopped p (0, duration_zero, duration_zero, false) eq_refl
                prog s' s2 H0 Hall Hrun) as (t2 & Ht2 & Hk2).
    unfold timing in Hk2. injection Hk2 as Hcp2 Hxi2 He2 Hr2.
    unfold stimer_is_expired in Hexp.
    inv_bind Hexp as s4.
    apply (advance_and_checkpoint_2_idle p w s2 s4 t2 Ht2 Hr2) in Es4. subst s4.
    apply load_timer_Done in Ht2. rewrite Ht2 in Hexp. cbn [bind] in Hexp.
    injection Hexp as <- <-. rewrite He2, Hxi2. split; reflexivity.
Qed.

(* ------------------------------------------------------------------ *)
(** ** An expired timer stays expired *)



Section Expired.

Variable ok_tm : tm_math -> Prop.
Variable ok_scale : Z -> Prop.

(** Identical samples are no progress, and with the configurations in use
    no counter difference is worth more than one second. *)
Hypothesis tm_diff_same : forall tmv t, tm_get_diff tmv t t <= 0.
Hypothesis one_second : forall tmv npc now cp,
  ok_tm tmv -> ok_scale npc -> u32 (tm_get_diff tmv now cp * npc) <= NS_PER_S.

Variable p : addr.
Variable x : stimer_duration.

Local Abbreviation stays := (stays_expired ok_tm ok_scale p x).
Local Abbreviation during := (during_call ok_tm ok_scale p x).

Lemma stays_store_ne n o (q : addr) t (s : St) :
  q <> p -> stays n o s -> stays n o (store_timer q t s).
Proof.
  intros Hq (Hcfg & t0 & Ht0 & HE). split; [exact Hcfg |].
  exists t0. split; [| exact HE].
  cbn. rewrite lookup_insert_ne by congruence. exact Ht0.
Qed.

(** Only the checkpoint, the expire interval and the elapsed time of [p]
    matter. *)
Lemma stays_store_same n o (q : addr) t t' (s : St) :
  timers s !! q = Some t ->
  checkpoint t' = checkpoint t -> expire_interval t' = expire_interval t ->
  elapsed t' = elapsed t ->
  stays n o s -> stays n o (store_timer q t' s).
Proof.
  intros Ht Hcp Hx He H. destruct (decide (q = p)) as [-> | Hq].
  - destruct H as (Hcfg & t0 & Ht0 & HE & Ho). split; [exact Hcfg |].
    rewrite Ht in Ht0. injection Ht0 as <-.
    exists t'. split; [cbn; apply lookup_insert_eq |].
    unfold expired_with_margin in *. rewrite Hcp, Hx, He. auto.
  - apply stays_store_ne; assumption.
Qed.

Lemma stays_store_ctx n o (ca : addr) (c : stimer_ctx world tm_math) (s : St) :
  ok_tm (tm c) -> ok_scale (ns_per_count c) ->
  stays n o s -> stays n o (store_ctx ca c s).
Proof.
  intros H1 H2 (Hcfg & Ht). split; [| exact Ht].
  intros cb cy Hy. cbn in Hy.
  destruct (decide (ca = cb)) as [-> | Hne].
  - rewrite lookup_insert_eq in Hy. injection Hy as <-. auto.
  - rewrite lookup_insert_ne in Hy by exact Hne. eapply Hcfg; eauto.
Qed.



Lemma during_begin n now (s : St) : stays (S n) None s -> during n now s.
Proof. intros H. left. exact H. Qed.

Lemma during_end n now (s : St) : during n now s -> stays n None s.
Proof.
  intros [(Hcfg & t & Ht & (Hx & Hn & Hge & Hw) & _)
         | (Hcfg & t & Ht & HE & _)];
    (split; [exact Hcfg |]); exists t; (split; [exact Ht |]).
  - split; [| exact I]. repeat split; try assumption; try apply Hn. lia.
  - split; [exact HE | exact I].
Qed.

Lemma during_configured n now (s : St) :
  during n now s -> configured ok_tm ok_scale s.
Proof. intros [[H _] | [H _]]; exact H. Qed.

Lemma during_store_ne n now (q : addr) t (s : St) :
  q <> p -> during n now s -> during n now (store_timer q t s).
Proof.
  intros Hq [H | H]; [left | right]; apply stays_store_ne; assumption.
Qed.

Lemma during_store_same n now (q : addr) t t' (s : St) :
  timers s !! q = Some t ->
  checkpoint t' = checkpoint t -> expire_interval t' = expire_interval t ->
  elapsed t' = elapsed t ->
  during n now s -> during n now (store_timer q t' s).
Proof.
  intros Ht Hcp Hx He [H | H]; [left | right];
    eapply stays_store_same; eauto.
Qed.

Lemma during_store_links n now (q : addr) t t' (s : St) :
  timers s !! q = Some t -> timing t' = timing t ->
  during n now s -> during n now (store_timer q t' s).
Proof.
  intros Ht Hsame. unfold timing in Hsame. injection Hsame as Hcp Hx He _.
  eapply during_store_same; eauto.
Qed.

Lemma during_store_root n now (ca : addr) cx v (s : St) :
  ctxs s !! ca = Some cx -> during n now s ->
  during n now (store_ctx ca (set_root v cx) s).
Proof.
  intros Hx H.
  destruct (during_configured n now s H ca cx Hx) as [H1 H2].
  destruct H as [H | H]; [left | right]; apply stays_store_ctx; assumption.
Qed.

Lemma during_live n now (s : St) : during n now s -> is_Some (timers s !! p).
Proof. intros [(_ & t & Ht & _) | (_ & t & Ht & _)]; eauto. Qed.




Ltac framed :=
  eauto using during_store_ne, during_store_links, during_store_root,
    during_live.

Ltac null_or q H Hrun :=
  destruct q as [q |];
  [| injection Hrun as <-; apply (during_end _ 0); apply during_begin; exact H].




End Expired.



(* ------------------------------------------------------------------ *)
(** ** The sweep terminates *)

(** The advance of an attached timer completes, and touches neither a link
    nor a context. *)
Lemma advance_and_checkpoint_total (q : addr) tmv now (s : St) t :
  timers s !! q = Some t -> attached s t ->
  exists s' t',
    advance_and_checkpoint tm_get_diff q tmv now s = Done s' /\
    ctxs s' = ctxs s /\
    timers s' !! q = Some t' /\ next t' = next t /\ ctx t' = ctx t /\
    (forall r, r <> q -> timers s' !! r = timers s !! r).
Proof.
  intros Ht (ca & Hc & cx & Hx). unfold advance_and_checkpoint.
  pose proof Ht as Hl. apply load_timer_Done in Hl. rewrite Hl. cbn [bind].
  destruct (is_running t); [| exists s, t; auto 10].
  destruct (0 <? _); [| exists s, t; auto 10].
  rewrite Hc. apply load_ctx_Done in Hx. rewrite Hx. cbn [bind].
  eexists. eexists. split; [reflexivity |]. split; [reflexivity |].
  split; [cbn; apply lookup_insert_eq |].
  split; [reflexivity |]. split; [cbn; exact Hc |].
  intros r Hr. cbn. apply lookup_insert_ne. congruence.
Qed.

Lemma chain_preserved l : forall (s s' : St) ts,
  ctxs s' = ctxs s ->
  (forall r t, timers s !! r = Some t ->
     exists t', timers s' !! r = Some t' /\ next t' = next t /\ ctx t' = ctx t) ->
  chain s ts l -> chain s' ts l.
Proof.
  induction l as [| q l IH]; intros s s' ts Hx Ht Hch; cbn [chain] in *;
    [exact Hch |].
  destruct Hch as (-> & t & Hq & (ca & Hc & Hlive) & Hrest).
  split; [reflexivity |].
  destruct (Ht q t Hq) as (t' & Hq' & Hn & Hc').
  exists t'. split; [exact Hq' |]. split.
  - exists ca. rewrite Hc', Hx. auto.
  - rewrite Hn. eapply IH; eauto.
Qed.

(** On a well-formed list, a budget of one iteration per timer is enough
    for the sweep to complete. *)
Lemma sweep_total l : forall fuel tmv now ts (s : St),
  chain s ts l -> (length l <= fuel)%nat ->
  exists s', sweep tm_get_diff fuel tmv now ts s = Done s'.
Proof.
  induction l as [| q l IH]; intros fuel tmv now ts s Hch Hfuel;
    cbn [chain] in Hch.
  - subst ts. destruct fuel; cbn [sweep]; eauto.
  - destruct Hch as (-> & t & Hq & Hatt & Hrest).
    destruct fuel as [| fuel]; [cbn [length] in Hfuel; lia |].
    cbn [sweep].
    destruct (advance_and_checkpoint_total q tmv now s t Hq Hatt)
      as (s1 & t1 & Hrun & Hx & Hq1 & Hn & Hc & Hother).
    rewrite Hrun. cbn [bind].
    apply load_timer_Done in Hq1. rewrite Hq1. cbn [bind].
    apply load_timer_Done in Hq1.
    apply IH; [| cbn [length] in Hfuel; lia].
    rewrite Hn. eapply chain_preserved; [exact Hx | | exact Hrest].
    intros r tr Hr. destruct (decide (r = q)) as [-> | Hne].
    + rewrite Hq in Hr. injection Hr as <-. eauto.
    + exists tr. rewrite (Hother r Hne). auto.
Qed.

(** [stimer_execute_context] on a live context whose list is well formed
    completes. *)
Lemma stimer_execute_context_total l fuel (ca : addr) (w : world) (s : St) cx :
  ctxs s !! ca = Some cx -> chain s (root cx) l -> (length l <= fuel)%nat ->
  exists s', stimer_execute_context tm_get_diff fuel (Some ca) w s = Done s'.
Proof.
  intros Hx Hch Hfuel. unfold stimer_execute_context.
  apply load_ctx_Done in Hx. rewrite Hx. cbn [bind].
  eapply sweep_total; eauto.
Qed.

End Proofs.

(* ------------------------------------------------------------------ *)
(** ** The scenarios of the unit tests *)

(** "can track elapsed time": after 1001 sweeps of one millisecond, one
    second and one millisecond have elapsed; the stopped timer stays there
    through 999 more sweeps while the other reads two seconds. *)
Example elapse_test_1001 :
  elapsed_after elapse_test (Some 1%positive) 1001
  = Done (Some (mk_duration 1 1000000)).
Proof. vm_compute. reflexivity. Qed.

Example elapse_test_stopped :
  elapsed_after (elapse_test ++ [(1001, CallStop (Some 1%positive))] ++ sweeps 1001 999)
    (Some 1%positive) 2000
  = Done (Some (mk_duration 1 1000000)) /\
  elapsed_after (elapse_test ++ [(1001, CallStop (Some 1%positive))] ++ sweeps 1001 999)
    (Some 2%positive) 2000
  = Done (Some (mk_duration 2 0)).
Proof. split; vm_compute; reflexivity. Qed.

(** "can advance and restart timers": after the advance and the restart at
    tick 3 neither timer is expired; the advanced one expires again at tick
    4, the restarted one at tick 5. *)
Example reset_test_ticks :
  expired_after reset_test (Some 1%positive) 3 = Done false /\
  expired_after reset_test (Some 2%positive) 3 = Done false /\
  expired_after reset_test (Some 1%positive) 4 = Done true /\
  expired_after reset_test (Some 2%positive) 4 = Done false /\
  expired_after reset_test (Some 2%positive) 5 = Done true.
Proof. repeat split; vm_compute; reflexivity. Qed.

(* ------------------------------------------------------------------ *)
(** ** The reference environment meets the assumptions *)

Lemma ring_diff_same_le (M t : Z) : ring_diff M t t <= 0.
Proof. rewrite ring_diff_same. lia. Qed.



(* ------------------------------------------------------------------ *)
(** ** Instances *)

Ltac arith :=
  unfold normalized, duration_u32, in_u32, U32_MOD, NS_PER_S;
  cbn; lia.

(** [Forall] over an explicit list, each element by [tac]. *)
Ltac each tac := repeat (apply List.Forall_cons; [tac |]); apply List.Forall_nil.

(** Three advances from 0.999 s: 1000 ns, one second, 5 ns. *)
Lemma advance_all_invariant_witness :
  0 <= nanoseconds
         (advance_all (mk_duration 0 999999000) (firstn 2 [1000; 1000000000; 5]))
    < NS_PER_S /\
  total_ns (advance_all (mk_duration 0 999999000) (firstn 2 [1000; 1000000000; 5]))
  = (total_ns (mk_duration 0 999999000) + sum_ns (firstn 2 [1000; 1000000000; 5]))
      mod (U32_MOD * NS_PER_S).
Proof.
  apply (advance_all_invariant (mk_duration 0 999999000) [1000; 1000000000; 5] 2).
  - arith.
  - each ltac:(unfold NS_PER_S; lia).
Defined.

(** A single advance of two seconds leaves one whole second in the
    nanoseconds field; two advances of three seconds lose time. *)
Lemma advance_all_two_seconds_denormalized :
  normalized duration_zero /\
  Forall in_u32 [2000000000] /\ Forall in_u32 [3000000000; 3000000000] /\
  advance_all duration_zero [2000000000] = mk_duration 1 1000000000 /\
  ~ (0 <= nanoseconds (advance_all duration_zero [2000000000]) < NS_PER_S) /\
  advance_all duration_zero [3000000000; 3000000000] = mk_duration 1 705032704 /\
  total_ns (advance_all duration_zero [3000000000; 3000000000])
  <> (total_ns duration_zero + sum_ns [3000000000; 3000000000])
       mod (U32_MOD * NS_PER_S).
Proof.
  split; [unfold duration_zero; arith |].
  split; [each arith |].
  split; [each arith |].
  split; [vm_compute; reflexivity |].
  split; [vm_compute; intros [_ H]; discriminate H |].
  split; [vm_compute; reflexivity |].
  vm_compute. discriminate.
Qed.


Lemma setters_store_canonical_interval_witness :
  exists s' t',
    stimer_expire_from_now_ms (Some 1%positive) 2500 7
      (one_timer (running_timer 3 (mk_duration 0 5) (mk_duration 2 10)))
    = Done s' /\
    timers s' !! 1%positive = Some t' /\
    normalized (expire_interval t') /\
    total_ns (expire_interval t') = 2500 * 1000000 /\
    seconds (expire_interval t') = 2500 / 1000 /\
    nanoseconds (expire_interval t') = (2500 mod 1000) * 1000000.
Proof.
  assert (Hv : ctx_valid
                 (one_timer (running_timer 3 (mk_duration 0 5) (mk_duration 2 10)))
                 (running_timer 3 (mk_duration 0 5) (mk_duration 2 10))).
  { exists (test_ctx (Some 1%positive)). reflexivity. }
  destruct (setters_store_canonical_interval 1%positive 7
              (one_timer (running_timer 3 (mk_duration 0 5) (mk_duration 2 10)))
              (running_timer 3 (mk_duration 0 5) (mk_duration 2 10))
              eq_refl Hv) as (_ & Hms & _).
  apply Hms. unfold in_u32, U32_MOD. lia.
Defined.

Lemma detached_timer_inert_witness :
  stimer_is_expired ring_diff (Some 1%positive) 9
    (detached (detached_timer 5 (mk_duration 0 2000000) (mk_duration 0 5000000) false))
  = Done (detached (detached_timer 5 (mk_duration 0 2000000) (mk_duration 0 5000000) false),
          true) /\
  stimer_start (Some 1%positive) 9
    (detached (detached_timer 5 (mk_duration 0 2000000) (mk_duration 0 5000000) false))
  = Done (detached (detached_timer 5 (mk_duration 0 2000000) (mk_duration 0 5000000) false)).
Proof.
  destruct (detached_timer_inert ring_diff 1%positive 9
              (detached (detached_timer 5 (mk_duration 0 2000000)
                           (mk_duration 0 5000000) false))
              (detached_timer 5 (mk_duration 0 2000000) (mk_duration 0 5000000) false)
              eq_refl eq_refl) as (_ & Hexp & Hstart & _).
  split; [exact Hexp | exact Hstart].
Defined.

(** A timer started with a 2 ms interval and polled at tick 5 is detached
    by the destruction of its context while running; [stimer_advance] then
    takes 2 ms off its elapsed time, and a setter overwrites its expire
    interval. *)
Lemma detached_timer_still_mutated :
  ctx (detached_timer 5 (mk_duration 0 2000000) (mk_duration 0 5000000) true) = None /\
  mock_run detach_running empty_state
  = Done (detached (detached_timer 5 (mk_duration 0 2000000)
                      (mk_duration 0 5000000) true)) /\
  stimer_advance ring_diff (Some 1%positive) 5
    (detached (detached_timer 5 (mk_duration 0 2000000) (mk_duration 0 5000000) true))
  = Done (detached (detached_timer 5 (mk_duration 0 2000000)
                      (mk_duration 0 3000000) true)) /\
  mk_duration 0 3000000 <> mk_duration 0 5000000 /\
  stimer_expire_from_now_s (Some 1%positive) 9 5
    (detached (detached_timer 5 (mk_duration 0 2000000) (mk_duration 0 5000000) true))
  = Done (detached (detached_timer 5 (mk_duration 9 0)
                      (mk_duration 0 5000000) true)) /\
  mk_duration 9 0 <> mk_duration 0 2000000.
Proof.
  repeat split; try (vm_compute; reflexivity); discriminate.
Qed.

(** One tick into a 2 ms interval: the advance brings the elapsed time to
    1 ms, and [stimer_advance] then resets it to zero. *)
Lemma stimer_advance_not_expired_witness :
  exists s2 t2,
    stimer_advance ring_diff (Some 1%positive) 1
      (one_timer (running_timer 0 (mk_duration 0 2000000) duration_zero))
    = Done s2 /\
    timers s2 !! 1%positive = Some t2 /\
    elapsed t2 = duration_zero /\ checkpoint t2 = 1 /\
    expire_interval t2 = mk_duration 0 2000000.
Proof.
  destruct (stimer_advance_not_expired ring_diff 1%positive 1
              (one_timer (running_timer 0 (mk_duration 0 2000000) duration_zero))
              (one_timer (running_timer 1 (mk_duration 0 2000000) (mk_duration 0 1000000)))
              (running_timer 0 (mk_duration 0 2000000) duration_zero)
              (running_timer 1 (mk_duration 0 2000000) (mk_duration 0 1000000))
              eq_refl eq_refl eq_refl eq_refl eq_refl)
    as (s2 & t2 & H1 & H2 & H3 & H4 & H5 & _).
  exists s2, t2. repeat split; assumption.
Defined.

(** The same timer: after the advance it has run for 1 ms of its 2 ms, and
    [stimer_advance] leaves it at zero, not at 1 ms; it is not the advance
    alone. *)
Lemma stimer_advance_zeroes_unexpired :
  is_running (running_timer 0 (mk_duration 0 2000000) duration_zero) = true /\
  advance_and_checkpoint_2 ring_diff 1%positive 1
    (one_timer (running_timer 0 (mk_duration 0 2000000) duration_zero))
  = Done (one_timer (running_timer 1 (mk_duration 0 2000000) (mk_duration 0 1000000))) /\
  timer_duration_ge (mk_duration 0 1000000) (mk_duration 0 2000000) = false /\
  stimer_advance ring_diff (Some 1%positive) 1
    (one_timer (running_timer 0 (mk_duration 0 2000000) duration_zero))
  = Done (one_timer (running_timer 1 (mk_duration 0 2000000) duration_zero)) /\
  stimer_advance ring_diff (Some 1%positive) 1
    (one_timer (running_timer 0 (mk_duration 0 2000000) duration_zero))
  <> advance_and_checkpoint_2 ring_diff 1%positive 1
       (one_timer (running_timer 0 (mk_duration 0 2000000) duration_zero)) /\
  duration_zero <> mk_duration 0 1000000.
Proof.
  repeat split; try (vm_compute; reflexivity); vm_compute; discriminate.
Qed.

(** Three ticks into a 2 ms interval: 1 ms of overshoot is kept. *)
Lemma stimer_advance_expired_witness :
  exists s2 t2,
    stimer_advance ring_diff (Some 1%positive) 3
      (one_timer (running_timer 0 (mk_duration 0 2000000) duration_zero))
    = Done s2 /\
    timers s2 !! 1%positive = Some t2 /\
    total_ns (elapsed t2)
    = total_ns (mk_duration 0 3000000) - total_ns (mk_duration 0 2000000).
Proof.
  assert (Hu : duration_u32 (mk_duration 0 3000000)) by arith.
  assert (Hn : normalized (mk_duration 0 2000000)) by arith.
  destruct (stimer_advance_expired ring_diff 1%positive 3
              (one_timer (running_timer 0 (mk_duration 0 2000000) duration_zero))
              (one_timer (running_timer 3 (mk_duration 0 2000000) (mk_duration 0 3000000)))
              (running_timer 0 (mk_duration 0 2000000) duration_zero)
              (running_timer 3 (mk_duration 0 2000000) (mk_duration 0 3000000))
              eq_refl eq_refl eq_refl eq_refl Hu Hn eq_refl)
    as (s2 & t2 & H1 & H2 & H3 & _).
  exists s2, t2. repeat split; assumption.
Defined.

(** With an expire interval of one second and 3_000_000_000 nanoseconds,
    stored as given, a timer that has run for five seconds is expired, and
    [stimer_advance] leaves it at three seconds and 2_294_967_296
    nanoseconds: 5_294_967_296 ns, not the 1_000_000_000 ns that five
    seconds minus the interval are. *)
Lemma stimer_advance_denormal_interval :
  elapsed_after denormal_interval (Some 1%positive) 5
  = Done (Some (mk_duration 5 0)) /\
  expired_after denormal_interval (Some 1%positive) 5 = Done true /\
  elapsed_after (denormal_interval ++ [(5, CallAdvance (Some 1%positive))])
    (Some 1%positive) 5
  = Done (Some (mk_duration 3 2294967296)) /\
  total_ns (mk_duration 3 2294967296)
  <> total_ns (mk_duration 5 0) - total_ns (mk_duration 1 3000000000) /\
  mk_duration 3 2294967296
  <> mk_duration (5 - 1 - 1) (0 + NS_PER_S - 3000000000).
Proof.
  split; [vm_compute; reflexivity |].
  split; [vm_compute; reflexivity |].
  split; [vm_compute; reflexivity |].
  split; vm_compute; discriminate.
Qed.

(** Stopped at tick 5, then swept, polled and queried while the counter
    runs on. *)
Lemma stop_freezes_elapsed_witness :
  stimer_get_elapsed_time ring_diff (Some 1%positive) (Some duration_zero) 30
    (one_timer (stopped_timer 5 duration_zero (mk_duration 0 5000000)))
  = Done (one_timer (stopped_timer 5 duration_zero (mk_duration 0 5000000)),
          Some (mk_duration 0 5000000)).
Proof.
  apply (stop_freezes_elapsed ring_initialize ring_diff 1%positive 5
           (one_timer (running_timer 0 duration_zero duration_zero))
           (one_timer (stopped_timer 5 duration_zero (mk_duration 0 5000000)))
           (one_timer (stopped_timer 5 duration_zero (mk_duration 0 5000000)))
           (stopped_timer 5 duration_zero (mk_duration 0 5000000))
           [ (9, CallExecuteContext 4 (Some 1%positive));
             (12, CallIsExpired (Some 1%positive));
             (20, CallGetElapsedTime (Some 1%positive) (Some duration_zero)) ]).
  - reflexivity.
  - reflexivity.
  - reflexivity.
  - each ltac:(reflexivity).
  - reflexivity.
Defined.

(** The first timer allocated in the context of the tests. *)
Lemma fresh_timer_is_expired_witness :
  stimer_is_expired ring_diff (Some 1%positive) 9
    (one_timer (stopped_timer 0 duration_zero duration_zero))
  = Done (one_timer (stopped_timer 0 duration_zero duration_zero), true).
Proof.
  destruct (fresh_timer_is_expired ring_initialize ring_diff true (Some 1%positive)
              ctx_only
              (one_timer (stopped_timer 0 duration_zero duration_zero))
              1%positive eq_refl) as (_ & H & _).
  apply H.
Defined.



(* ================================================================== *)
(** * Further properties of the code *)

Section More.

Context {world tm_math : Type}.
Variable tm_initialize : Z -> tm_math.
Variable tm_get_diff : tm_math -> Z -> Z -> Z.

Local Abbreviation St := (state world tm_math).

(* ------------------------------------------------------------------ *)
(** ** The comparison of durations *)

(** X1: [timer_duration_ge] is a total order on durations: reflexive,
    total, transitive and antisymmetric; and on canonical durations it holds
    exactly when the left one stands for at least as much time as the right
    one. *)
Theorem timer_duration_ge_order :
  (forall a, timer_duration_ge a a = true) /\
  (forall a b, timer_duration_ge a b = true \/ timer_duration_ge b a = true) /\
  (forall a b c, timer_duration_ge a b = true -> timer_duration_ge b c = true ->
                 timer_duration_ge a c = true) /\
  (forall a b, timer_duration_ge a b = true -> timer_duration_ge b a = true ->
               a = b) /\
  (forall a b, normalized a -> normalized b ->
               (timer_duration_ge a b = true <-> total_ns b <= total_ns a)).
Proof.
  split; [intros a; apply timer_duration_ge_true; lia |].
  split; [intros a b; rewrite !timer_duration_ge_true; lia |].
  split; [intros a b c; rewrite !timer_duration_ge_true; lia |].
  split; [| intros a b; apply timer_duration_ge_total].
  intros [sa na] [sb nb]. rewrite !timer_duration_ge_true.
  cbn [seconds nanoseconds]. intros H1 H2. f_equal; lia.
Qed.

(* ------------------------------------------------------------------ *)
(** ** The units of the setters *)

Lemma interval_of_ms_thousand x :
  0 <= x -> interval_of_ms (x * 1000) = interval_of_s x.
Proof.
  intros Hx. unfold interval_of_ms, interval_of_s.
  rewrite Z.div_mul by lia. rewrite Z.mod_mul by lia. reflexivity.
Qed.

Lemma interval_of_us_thousand x :
  0 <= x -> interval_of_us (x * 1000) = interval_of_ms x.
Proof.
  intros Hx. unfold interval_of_us, interval_of_ms. f_equal.
  - replace 1000000 with (1000 * 1000) by reflexivity.
    rewrite Z.div_mul_cancel_r by lia. reflexivity.
  - f_equal. replace 1000000 with (1000 * 1000) at 1 by reflexivity.
    rewrite Z.mul_mod_distr_r by lia. lia.
Qed.

Lemma interval_of_ns_thousand x :
  0 <= x -> interval_of_ns (x * 1000) = interval_of_us x.
Proof.
  intros Hx. unfold interval_of_ns, interval_of_us. f_equal.
  - replace 1000000000 with (1000000 * 1000) by reflexivity.
    rewrite Z.div_mul_cancel_r by lia. reflexivity.
  - replace 1000000000 with (1000000 * 1000) by reflexivity.
    rewrite Z.mul_mod_distr_r by lia.
    pose proof (Z.mod_pos_bound x 1000000 ltac:(lia)).
    rewrite u32_small by (unfold U32_MOD; lia). reflexivity.
Qed.

(** X2: the unit-suffixed setters agree, as long as the argument fits:
    when [1000 x] is a [uint32_t] value (so that the argument does not wrap),
    setting [x] seconds is setting [1000 x] milliseconds, setting [x]
    milliseconds is setting [1000 x] microseconds, and setting [x]
    microseconds is setting [1000 x] nanoseconds; each pair of calls has the
    same outcome on every heap. *)
Theorem setters_units_agree (x : Z) (ts : ptr) (w : world) (s : St) :
  in_u32 (x * 1000) ->
  stimer_expire_from_now_ms ts (x * 1000) w s = stimer_expire_from_now_s ts x w s /\
  stimer_expire_from_now_us ts (x * 1000) w s = stimer_expire_from_now_ms ts x w s /\
  stimer_expire_from_now_ns ts (x * 1000) w s = stimer_expire_from_now_us ts x w s.
Proof.
  intros Hu.
  assert (Hx : 0 <= x) by (unfold in_u32 in Hu; lia).
  unfold stimer_expire_from_now_s, stimer_expire_from_now_ms,
    stimer_expire_from_now_us, stimer_expire_from_now_ns.
  rewrite interval_of_ms_thousand, interval_of_us_thousand,
    interval_of_ns_thousand by exact Hx.
  repeat split.
Qed.

(* ------------------------------------------------------------------ *)
(** ** What a poll answers *)

(** X3: [stimer_is_expired] is exact.  On a running timer attached to a
    live context, with canonical elapsed time and expire interval, when the
    counter difference since the checkpoint is worth at most one second, the
    call completes and answers true exactly when the elapsed time plus the
    time since the checkpoint has reached the interval. *)
Theorem stimer_is_expired_exact (p : addr) (w : world) (s : St) t ca cx :
  timers s !! p = Some t -> ctx t = Some ca -> ctxs s !! ca = Some cx ->
  is_running t = true ->
  normalized (elapsed t) -> normalized (expire_interval t) ->
  seconds (elapsed t) + 1 < U32_MOD ->
  forall a,
    a = (if 0 <? tm_get_diff (tm cx) (sample cx w) (checkpoint t)
         then u32 (tm_get_diff (tm cx) (sample cx w) (checkpoint t) * ns_per_count cx)
         else 0) ->
    a <= NS_PER_S ->
    exists s1,
      stimer_is_expired tm_get_diff (Some p) w s
      = Done (s1, total_ns (expire_interval t) <=? total_ns (elapsed t) + a).
Proof.
  intros Ht Hc Hx Hr Hne Hnx Hw a Ha Hle.
  apply load_timer_Done in Ht. apply load_ctx_Done in Hx.
  unfold stimer_is_expired, advance_and_checkpoint_2, advance_and_checkpoint.
  rewrite Ht. cbn [bind]. rewrite Hc, Hx. cbn [bind]. rewrite Hr.
  destruct (0 <? tm_get_diff (tm cx) (sample cx w) (checkpoint t)).
  - cbn [bind]. rewrite load_timer_store_eq. cbn [bind].
    eexists. f_equal. f_equal.
    cbn [elapsed expire_interval set_checkpoint set_elapsed].
    rewrite <- Ha.
    assert (Ha0 : 0 <= a <= NS_PER_S).
    { split; [subst a; apply u32_range | exact Hle]. }
    destruct (advance_timer_duration_step (elapsed t) a Hne Ha0) as [Hn' Htot].
    rewrite Z.mod_small in Htot.
    + rewrite <- Htot.
      destruct (timer_duration_ge_total _ _ Hn' Hnx) as [H1 H2].
      destruct (Z.leb_spec (total_ns (expire_interval t))
                  (total_ns (advance_timer_duration (elapsed t) a))).
      * apply H2. assumption.
      * destruct (timer_duration_ge _ _); [| reflexivity].
        specialize (H1 eq_refl). lia.
    + destruct Hne as [[? ?] ?].
      unfold total_ns, NS_PER_S, U32_MOD in *. nia.
  - cbn [bind]. rewrite Ht. cbn [bind]. eexists. f_equal. f_equal.
    subst a. rewrite Z.add_0_r.
    destruct (timer_duration_ge_total _ _ Hne Hnx) as [H1 H2].
    destruct (Z.leb_spec (total_ns (expire_interval t)) (total_ns (elapsed t))).
    + apply H2. assumption.
    + destruct (timer_duration_ge _ _); [| reflexivity].
      specialize (H1 eq_refl). lia.
Qed.

(** X4: right after [stimer_start], at the same counter sample (for which
    the counter difference is not positive), [stimer_get_elapsed_time]
    returns zero; and right after [stimer_expire_from_now] with an interval
    of [uint32_t] fields, [stimer_is_expired] answers true exactly when the
    interval is zero.  Neither query changes the heap. *)
Theorem start_then_query (p : addr) (w : world) (s : St) t ca cx :
  (forall tmv now, tm_get_diff tmv now now <= 0) ->
  timers s !! p = Some t -> ctx t = Some ca -> ctxs s !! ca = Some cx ->
  (exists s1,
      stimer_start (Some p) w s = Done s1 /\
      forall d0, stimer_get_elapsed_time tm_get_diff (Some p) (Some d0) w s1
                 = Done (s1, Some duration_zero)) /\
  (forall d, duration_u32 d ->
     exists s1 b,
       stimer_expire_from_now (Some p) (Some d) w s = Done s1 /\
       stimer_is_expired tm_get_diff (Some p) w s1 = Done (s1, b) /\
       (b = true <-> d = duration_zero)).
Proof.
  intros Hsame Ht Hc Hx.
  assert (Hd0 : (0 <? tm_get_diff (tm cx) (sample cx w) (sample cx w)) = false).
  { apply Z.ltb_ge. apply Hsame. }
  pose proof Hx as Hlx. apply load_ctx_Done in Hlx.
  split.
  - unfold stimer_start.
    rewrite (start_and_checkpoint_timer_attached p w s t ca cx Ht Hc Hx).
    eexists. split; [reflexivity |]. intros d0.
    unfold stimer_get_elapsed_time, advance_and_checkpoint.
    rewrite load_timer_store_eq.
    cbn [bind is_running ctx checkpoint elapsed set_elapsed set_is_running
         set_checkpoint].
    rewrite Hc. unfold load_ctx in *. cbn [ctxs store_timer]. 
    destruct (ctxs s !! ca) as [cx0 |]; [| discriminate]. injection Hlx as ->.
    cbn [bind]. rewrite Hd0. cbn [bind]. rewrite load_timer_store_eq.
    reflexivity.
  - intros d Hd. unfold stimer_expire_from_now.
    rewrite (start_and_checkpoint_timer_attached p w s t ca cx Ht Hc Hx).
    cbn [bind]. unfold write_expire_interval.
    rewrite load_timer_store_eq. cbn [bind]. rewrite store_timer_twice.
    eexists. eexists. split; [reflexivity |].
    unfold stimer_is_expired, advance_and_checkpoint_2, advance_and_checkpoint.
    rewrite load_timer_store_eq.
    cbn [bind is_running ctx checkpoint elapsed expire_interval set_elapsed
         set_is_running set_checkpoint set_expire_interval].
    rewrite Hc. unfold load_ctx in *. cbn [ctxs store_timer].
    destruct (ctxs s !! ca) as [cx0 |]; [| discriminate]. injection Hlx as ->.
    cbn [bind]. rewrite Hd0. cbn [bind]. rewrite load_timer_store_eq.
    cbn [bind elapsed expire_interval]. split; [reflexivity |].
    rewrite timer_duration_ge_true.
    destruct d as [sd nd]. destruct Hd as [[? ?] [? ?]].
    unfold duration_zero.
    cbn [seconds nanoseconds elapsed expire_interval set_expire_interval
         set_elapsed] in *.
    split; [intros; f_equal; lia |]. intros [= -> ->]. lia.
Qed.

(* ------------------------------------------------------------------ *)
(** ** One advance, described *)

Lemma store_timer_same (q : addr) t (s : St) :
  timers s !! q = Some t -> store_timer q t s = s.
Proof.
  intros Ht. destruct s as [ts cs]. unfold store_timer. cbn in *.
  f_equal. apply insert_id. exact Ht.
Qed.

(** The advance of an attached timer rewrites that timer only, and only its
    checkpoint and elapsed time, and only when it is running and the counter
    has moved forward. *)
Lemma advance_and_checkpoint_effect (q : addr) tmv now (s : St) t ca cx :
  timers s !! q = Some t -> ctx t = Some ca -> ctxs s !! ca = Some cx ->
  advance_and_checkpoint tm_get_diff q tmv now s
  = Done (store_timer q
            (if is_running t && (0 <? tm_get_diff tmv now (checkpoint t))
             then set_checkpoint now
                    (set_elapsed
                       (advance_timer_duration (elapsed t)
                          (u32 (tm_get_diff tmv now (checkpoint t) * ns_per_count cx)))
                       t)
             else t)
            s).
Proof.
  intros Ht Hc Hx. unfold advance_and_checkpoint.
  pose proof Ht as Hl. apply load_timer_Done in Hl. rewrite Hl. cbn [bind].
  destruct (is_running t); cbn [andb];
    [| rewrite (store_timer_same q t s Ht); reflexivity].
  destruct (0 <? _);
    [| rewrite (store_timer_same q t s Ht); reflexivity].
  rewrite Hc. apply load_ctx_Done in Hx. rewrite Hx. reflexivity.
Qed.

(* ------------------------------------------------------------------ *)
(** ** Stop *)

(** X5: [stimer_stop] on a live timer whose context pointer is [NULL] or
    valid completes; it clears the running flag of an attached timer, keeps
    the expire interval and the links, changes nothing when the timer is
    already stopped, and a second stop, whatever the counter then reads,
    changes nothing more. *)
Theorem stimer_stop_idempotent (p : addr) (w : world) (s : St) t :
  timers s !! p = Some t -> ctx_valid s t ->
  exists s1 t1,
    stimer_stop tm_get_diff (Some p) w s = Done s1 /\
    timers s1 !! p = Some t1 /\
    (ctx t <> None -> is_running t1 = false) /\
    expire_interval t1 = expire_interval t /\
    ctx t1 = ctx t /\ next t1 = next t /\
    (is_running t = false -> s1 = s) /\
    (forall w', stimer_stop tm_get_diff (Some p) w' s1 = Done s1).
Proof.
  intros Ht Hv. pose proof Ht as Hl. apply load_timer_Done in Hl.
  unfold stimer_stop. rewrite Hl. cbn [bind].
  unfold ctx_valid in Hv. destruct (ctx t) as [ca |] eqn:Hc.
  - destruct Hv as [cx Hx].
    destruct (is_running t) eqn:Hr.
    + pose proof Hx as Hlx. apply load_ctx_Done in Hlx. rewrite Hlx. cbn [bind].
      rewrite (advance_and_checkpoint_effect p (tm cx) (sample cx w) s t ca cx
                 Ht Hc Hx).
      cbn [bind]. rewrite load_timer_store_eq. cbn [bind].
      rewrite store_timer_twice.
      eexists. eexists. split; [reflexivity |].
      split; [cbn; apply lookup_insert_eq |].
      rewrite Hr. cbn [andb].
      split; [intros _; destruct (0 <? _); reflexivity |].
      split; [destruct (0 <? _); reflexivity |].
      split; [destruct (0 <? _); cbn; congruence |].
      split; [destruct (0 <? _); reflexivity |].
      split; [discriminate |].
      intros w'. rewrite load_timer_store_eq. cbn [bind].
      destruct (0 <? _); cbn; rewrite Hc; reflexivity.
    + exists s, t. repeat split; try assumption; try reflexivity.
      * intros _. exact Hr.
      * intros w'. rewrite Hl. cbn [bind]. rewrite Hc, Hr. reflexivity.
  - exists s, t. repeat split; try assumption; try reflexivity.
    + intros H. congruence.
    + intros w'. rewrite Hl. cbn [bind]. rewrite Hc. reflexivity.
Qed.

(* ------------------------------------------------------------------ *)
(** ** The periodic advance and the next expiry *)

(** X6: after [stimer_advance] on an expired running timer with canonical
    elapsed time and expire interval, the timer is still expired exactly
    when it had overshot by a whole interval or more, that is, when the
    elapsed time had reached twice the interval; otherwise the advance has
    cleared the expiry. *)
Theorem stimer_advance_clears_expiry (p : addr) (w : world) (s s1 : St) t t1 :
  timers s !! p = Some t -> is_running t = true ->
  advance_and_checkpoint_2 tm_get_diff p w s = Done s1 ->
  timers s1 !! p = Some t1 ->
  normalized (elapsed t1) -> normalized (expire_interval t1) ->
  timer_duration_ge (elapsed t1) (expire_interval t1) = true ->
  exists s2 t2,
    stimer_advance tm_get_diff (Some p) w s = Done s2 /\
    timers s2 !! p = Some t2 /\
    (timer_duration_ge (elapsed t2) (expire_interval t2) = true <->
     2 * total_ns (expire_interval t1) <= total_ns (elapsed t1)).
Proof.
  intros Ht Hr Ha Ht1 Hne Hnx Hge.
  apply load_timer_Done in Ht. apply load_timer_Done in Ht1.
  unfold stimer_advance. rewrite Ht. cbn [bind]. rewrite Hr, Ha. cbn [bind].
  rewrite Ht1. cbn [bind]. rewrite Hge.
  destruct (subtract_interval_exact _ _ (normalized_u32 _ Hne) Hnx Hge)
    as (Htot & _ & Hn2).
  eexists. eexists. split; [reflexivity |].
  split; [cbn; apply lookup_insert_eq |].
  cbn [elapsed expire_interval set_elapsed].
  rewrite (timer_duration_ge_total _ _ (Hn2 Hne) Hnx). rewrite Htot. lia.
Qed.

(* ------------------------------------------------------------------ *)
(** ** The list of a context *)

Lemma segment_frame l : forall (s s' : St) ca ts e,
  (forall q, q ∈ l -> timers s' !! q = timers s !! q) ->
  segment s ca ts l e -> segment s' ca ts l e.
Proof.
  induction l as [| q l IH]; intros s s' ca ts e Hsame Hseg; cbn [segment] in *;
    [exact Hseg |].
  destruct Hseg as (-> & t & Hq & Hc & Hrest).
  split; [reflexivity |]. exists t.
  split; [rewrite Hsame by (apply elem_of_cons; auto); exact Hq |].
  split; [exact Hc |].
  eapply IH; [| exact Hrest].
  intros r Hr. apply Hsame. apply elem_of_cons. auto.
Qed.

Lemma segment_app l1 : forall l2 (s : St) ca ts e,
  segment s ca ts (l1 ++ l2) e <->
  exists m, segment s ca ts l1 m /\ segment s ca m l2 e.
Proof.
  induction l1 as [| q l1 IH]; intros l2 s ca ts e; cbn [app segment].
  - split; [intros H; exists ts; auto | intros (m & -> & H); exact H].
  - split.
    + intros (-> & t & Hq & Hc & Hrest).
      apply IH in Hrest as (m & H1 & H2).
      exists m. split; [| exact H2]. split; [reflexivity |]. eauto.
    + intros (m & (-> & t & Hq & Hc & H1) & H2).
      split; [reflexivity |]. exists t. split; [exact Hq |].
      split; [exact Hc |]. apply IH. eauto.
Qed.

Lemma segment_functional l : forall l' (s : St) ca ts,
  segment s ca ts l None -> segment s ca ts l' None -> l = l'.
Proof.
  induction l as [| q l IH]; intros [| q' l'] s ca ts H H'; cbn [segment] in *.
  - reflexivity.
  - destruct H' as (-> & _). discriminate.
  - destruct H as (-> & _). discriminate.
  - destruct H as (-> & t & Hq & _ & Hrest).
    destruct H' as (Heq & t' & Hq' & _ & Hrest').
    injection Heq as <-. rewrite Hq in Hq'. injection Hq' as <-.
    f_equal. eapply IH; eauto.
Qed.

Lemma segment_live l : forall (s : St) ca ts e q,
  segment s ca ts l e -> q ∈ l ->
  exists t, timers s !! q = Some t /\ ctx t = Some ca.
Proof.
  induction l as [| r l IH]; intros s ca ts e q Hseg Hq.
  - apply elem_of_nil in Hq. contradiction.
  - cbn [segment] in Hseg. destruct Hseg as (-> & t & Hr & Hc & Hrest).
    apply elem_of_cons in Hq as [-> | Hq]; [eauto | eapply IH; eauto].
Qed.

(** A list that reaches [NULL] visits no timer twice. *)
Lemma segment_NoDup l : forall (s : St) ca ts,
  segment s ca ts l None -> NoDup l.
Proof.
  induction l as [| q l IH]; intros s ca ts Hseg; [apply NoDup_nil_2 |].
  pose proof Hseg as Hseg0.
  cbn [segment] in Hseg. destruct Hseg as (-> & t & Hq & Hc & Hrest).
  apply NoDup_cons_2; [| eapply IH; eauto].
  intros Hin. apply list_elem_of_split in Hin as (l1 & l2 & ->).
  apply segment_app in Hrest as (m & _ & H2).
  pose proof H2 as H2'. cbn [segment] in H2'. destruct H2' as (-> & _).
  pose proof (segment_functional _ _ _ _ _ Hseg0 H2) as Heq.
  apply (f_equal (@length addr)) in Heq.
  cbn [length] in Heq. rewrite length_app in Heq. cbn [length] in Heq. lia.
Qed.

Lemma registered_NoDup (s : St) ca l : registered s ca l -> NoDup l.
Proof. intros (cx & _ & Hseg). eapply segment_NoDup; eauto. Qed.

(* ------------------------------------------------------------------ *)
(** ** Allocation *)

(** The heap a successful [stimer_alloc] leaves. *)
Lemma stimer_alloc_result (ca : addr) (s : St) cx :
  ctxs s !! ca = Some cx ->
  stimer_alloc true (Some ca) s
  = Done (mk_state
            (<[fresh (dom (timers s)) :=
                 mk_stimer (Some ca) (root cx) 0 duration_zero duration_zero false]>
               (timers s))
            (<[ca := set_root (Some (fresh (dom (timers s)))) cx]> (ctxs s)),
          Some (fresh (dom (timers s)))).
Proof.
  intros Hx. unfold stimer_alloc, link_timer.
  rewrite load_timer_store_eq. cbn [bind].
  apply load_ctx_Done in Hx.
  assert (Hx1 : forall a t (v : St), load_ctx ca (store_timer a t v) = load_ctx ca v)
    by reflexivity.
  rewrite Hx1, Hx1, Hx. cbn [bind]. rewrite load_timer_store_eq. cbn [bind].
  destruct (root cx) as [r |]; rewrite !Hx1, Hx; cbn [bind];
    unfold store_ctx, store_timer; cbn; rewrite !insert_insert_eq; reflexivity.
Qed.

Lemma fresh_timer_free (s : St) : timers s !! fresh (dom (timers s)) = None.
Proof. apply not_elem_of_dom. apply is_fresh. Qed.

(** X7: [stimer_alloc] on a live context whose list is well formed takes a
    block that was not live, returns it zeroed and stopped, and puts it at
    the head of the list of the context, in front of the timers that were
    registered; no other timer and no other context changes. *)
Theorem stimer_alloc_registers (ca : addr) (l : list addr) (s : St) :
  registered s ca l ->
  exists s' p t,
    stimer_alloc true (Some ca) s = Done (s', Some p) /\
    timers s !! p = None /\
    timers s' !! p = Some t /\
    timing t = (0, duration_zero, duration_zero, false) /\
    registered s' ca (p :: l) /\
    (forall q, q <> p -> timers s' !! q = timers s !! q) /\
    (forall cb, cb <> ca -> ctxs s' !! cb = ctxs s !! cb).
Proof.
  intros (cx & Hx & Hseg).
  rewrite (stimer_alloc_result ca s cx Hx).
  pose proof (fresh_timer_free s) as Hfree.
  set (a := fresh (dom (timers s))) in *.
  eexists. exists a. eexists. split; [reflexivity |].
  split; [exact Hfree |].
  split; [cbn; apply lookup_insert_eq |].
  split; [reflexivity |].
  split; [| split].
  - exists (set_root (Some a) cx). split; [cbn; apply lookup_insert_eq |].
    cbn [root set_root segment]. split; [reflexivity |].
    eexists. split; [cbn; apply lookup_insert_eq |].
    split; [reflexivity |]. cbn [next].
    eapply segment_frame; [| exact Hseg].
    intros q Hq. cbn. apply lookup_insert_ne. intros <-.
    destruct (segment_live _ _ _ _ _ _ Hseg Hq) as (t & Ht & _). congruence.
  - intros q Hq. cbn. apply lookup_insert_ne. congruence.
  - intros cb Hcb. cbn. apply lookup_insert_ne. congruence.
Qed.

(** X8: freeing the timer that was just allocated undoes the allocation:
    whatever the iteration budget, [stimer_free] of the timer [stimer_alloc]
    returned completes and gives back the heap as it was before. *)
Theorem stimer_alloc_free_roundtrip ok c (s s1 : St) (p : addr) :
  stimer_alloc ok c s = Done (s1, Some p) ->
  forall fuel, stimer_free fuel (Some p) s1 = Done s.
Proof.
  intros Halloc fuel.
  destruct (stimer_alloc_fresh ok c s s1 p Halloc) as (ca & cx & _ & -> & Hx & _).
  assert (ok = true) as -> by (destruct ok; [reflexivity | discriminate]).
  rewrite (stimer_alloc_result ca s cx Hx) in Halloc.
  injection Halloc as <- <-.
  pose proof (fresh_timer_free s) as Hfree.
  set (a := fresh (dom (timers s))) in *.
  unfold stimer_free, unlink_timer, load_timer, load_ctx.
  cbn [timers ctxs store_timer]. rewrite lookup_insert_eq.
  cbn [bind ctx next set_ctx set_next]. rewrite lookup_insert_eq.
  cbn [bind root set_root].
  rewrite decide_True by reflexivity.
  cbn [bind]. unfold free_timer, store_ctx, store_timer. cbn [timers ctxs].
  destruct s as [ts cs]. cbn [timers ctxs] in *. f_equal. f_equal.
  - rewrite insert_insert_eq, delete_insert_eq. apply delete_id. exact Hfree.
  - rewrite insert_insert_eq. destruct cx. apply insert_id. exact Hx.
Qed.

(** X9: destroying the context that was just created undoes the creation:
    whatever the iteration budget, [stimer_free_context] of the context
    [stimer_alloc_context] returned completes and gives back the heap as it
    was before. *)
Theorem stimer_alloc_free_context_roundtrip ok h fn mt npc (s s1 : St) (a : addr) :
  stimer_alloc_context tm_initialize ok h fn mt npc s = Done (s1, Some a) ->
  forall fuel, stimer_free_context fuel (Some a) s1 = Done s.
Proof.
  intros Halloc fuel. unfold stimer_alloc_context in Halloc.
  destruct ok; [| discriminate]. injection Halloc as <- <-.
  assert (Hfree : ctxs s !! fresh (dom (ctxs s)) = None)
    by (apply not_elem_of_dom; apply is_fresh).
  set (a := fresh (dom (ctxs s))) in *.
  unfold stimer_free_context.
  assert (Hloop : free_context_loop fuel fuel a
                    (store_ctx a (mk_stimer_ctx None (tm_initialize mt) npc fn h) s)
                  = Done (store_ctx a (mk_stimer_ctx None (tm_initialize mt) npc fn h) s)).
  { destruct fuel; cbn [free_context_loop]; unfold load_ctx;
      cbn [ctxs store_ctx]; rewrite lookup_insert_eq; reflexivity. }
  rewrite Hloop. cbn [bind]. unfold free_ctx, store_ctx. cbn [timers ctxs].
  destruct s as [ts cs]. cbn [timers ctxs] in *. f_equal. f_equal.
  rewrite delete_insert_eq. apply delete_id. exact Hfree.
Qed.

(* ------------------------------------------------------------------ *)
(** ** Unlinking *)

(** The search of [unlink_timer] on a segment that leads to [p]: it stops
    at the timer whose [next] is [p] and redirects it. *)
Lemma unlink_search_splice l1 : forall fuel (s : St) ca a p np,
  segment s ca (Some a) (a :: l1) (Some p) ->
  p ∉ a :: l1 -> NoDup (a :: l1) -> (length (a :: l1) <= fuel)%nat ->
  exists r tr,
    r ∈ a :: l1 /\ timers s !! r = Some tr /\
    unlink_search fuel p np (Some a) s = Done (store_timer r (set_next np tr) s) /\
    segment (store_timer r (set_next np tr) s) ca (Some a) (a :: l1) np.
Proof.
  induction l1 as [| b l1 IH]; intros fuel s ca a p np Hseg Hp Hnd Hfuel;
    (destruct fuel as [| fuel]; [cbn [length] in Hfuel; lia |]);
    cbn [segment] in Hseg; destruct Hseg as (_ & ta & Ha & Hca & Hrest);
    cbn [unlink_search]; pose proof Ha as Hla; apply load_timer_Done in Hla;
    rewrite Hla; cbn [bind].
  - rewrite decide_True by exact Hrest.
    exists a, ta. split; [apply elem_of_cons; auto |]. split; [exact Ha |].
    split; [reflexivity |].
    cbn [segment]. split; [reflexivity |].
    eexists. split; [cbn; apply lookup_insert_eq |].
    split; [exact Hca |]. reflexivity.
  - destruct Hrest as (Hnb & Hrest).
    assert (Hbp : b <> p).
    { intros ->. apply Hp. apply elem_of_cons. right. apply elem_of_cons. auto. }
    rewrite decide_False by (rewrite Hnb; congruence).
    rewrite Hnb.
    apply NoDup_cons in Hnd as [Hab Hnd].
    destruct (IH fuel s ca b p np) as (r & tr & Hr & Htr & Hrun & Hseg').
    + cbn [segment]. split; [reflexivity | exact Hrest].
    + intros H. apply Hp. apply elem_of_cons. auto.
    + exact Hnd.
    + cbn [length] in *. lia.
    + exists r, tr. split; [apply elem_of_cons; auto |]. split; [exact Htr |].
      split; [exact Hrun |].
      cbn [segment]. split; [reflexivity |].
      exists ta. split.
      * cbn. rewrite lookup_insert_ne; [exact Ha |]. intros ->. contradiction.
      * split; [exact Hca |]. rewrite Hnb. exact Hseg'.
Qed.

(** X10: [stimer_free] of a registered timer, with a budget of one
    iteration per timer in front of it in the list, completes, releases the
    timer, and takes exactly it out of the list of its context: the timers
    in front of it and those behind it stay registered, in the same order;
    every other timer keeps its timing fields and its context, and no other
    context changes. *)
Theorem stimer_free_unlinks (ca p : addr) (l1 l2 : list addr) fuel (s : St) :
  registered s ca (l1 ++ p :: l2) -> (length l1 <= fuel)%nat ->
  exists s',
    stimer_free fuel (Some p) s = Done s' /\
    timers s' !! p = None /\
    registered s' ca (l1 ++ l2) /\
    (forall q t, q <> p -> timers s !! q = Some t ->
       exists t', timers s' !! q = Some t' /\
                  timing t' = timing t /\ ctx t' = ctx t) /\
    (forall cb, cb <> ca -> ctxs s' !! cb = ctxs s !! cb).
Proof.
  intros Hreg Hfuel. pose proof (registered_NoDup s ca _ Hreg) as Hnd.
  destruct Hreg as (cx & Hx & Hseg).
  apply NoDup_app in Hnd as (Hnd1 & Hdisj & Hnd2).
  apply NoDup_cons in Hnd2 as [Hp2 Hnd2].
  assert (Hp1 : p ∉ l1).
  { intros H. apply (Hdisj p H). apply elem_of_cons. auto. }
  apply segment_app in Hseg as (m & Hs1 & Hs2).
  pose proof Hs2 as Hs2'. cbn [segment] in Hs2'.
  destruct Hs2' as (-> & tp & Htp & Hcp & Hs3).
  unfold stimer_free, unlink_timer.
  pose proof Htp as Hlp. apply load_timer_Done in Hlp. rewrite Hlp.
  cbn [bind]. rewrite Hcp.
  pose proof Hx as Hlx. apply load_ctx_Done in Hlx.
  change (load_ctx ca (store_timer p (set_ctx None (set_next None tp)) s))
    with (load_ctx ca s).
  rewrite Hlx. cbn [bind].
  destruct l1 as [| a l1].
  - (* the timer is the root *)
    cbn [segment] in Hs1. rewrite decide_True by exact Hs1. cbn [bind].
    eexists. split; [reflexivity |].
    split; [cbn; apply lookup_delete_eq |].
    split; [| split].
    + exists (set_root (next tp) cx). split; [cbn; apply lookup_insert_eq |].
      cbn [app root set_root]. eapply segment_frame; [| exact Hs3].
      intros q Hq. cbn.
      assert (q <> p) by (intros ->; contradiction).
      rewrite lookup_delete_ne, lookup_insert_ne by congruence. reflexivity.
    + intros q t Hq Ht. exists t. cbn.
      rewrite lookup_delete_ne, lookup_insert_ne by congruence. auto.
    + intros cb Hcb. cbn. apply lookup_insert_ne. congruence.
  - (* the timer is further down the list *)
    pose proof Hs1 as Hs1'. cbn [segment] in Hs1'. destruct Hs1' as (Hroot & _).
    assert (Hap : a <> p).
    { intros ->. apply Hp1. apply elem_of_cons. auto. }
    rewrite decide_False by (rewrite Hroot; congruence).
    rewrite Hroot.
    destruct (unlink_search_splice l1 fuel
                (store_timer p (set_ctx None (set_next None tp)) s)
                ca a p (next tp)) as (r & tr & Hr & Htr & Hrun & Hseg').
    + eapply segment_frame; [| rewrite <- Hroot; exact Hs1].
      intros q Hq. cbn. apply lookup_insert_ne. intros <-. contradiction.
    + exact Hp1.
    + exact Hnd1.
    + exact Hfuel.
    + rewrite Hrun. cbn [bind].
      assert (Hrp : r <> p) by (intros ->; contradiction).
      cbn in Htr. rewrite lookup_insert_ne in Htr by congruence.
      eexists. split; [reflexivity |].
      split; [cbn; apply lookup_delete_eq |].
      split; [| split].
      * exists cx. split; [exact Hx |]. rewrite Hroot.
        apply segment_app. exists (next tp). split.
        -- eapply segment_frame; [| exact Hseg'].
           intros q Hq. cbn.
           assert (q <> p) by (intros ->; contradiction).
           rewrite lookup_delete_ne by congruence. reflexivity.
        -- eapply segment_frame; [| exact Hs3].
           intros q Hq. cbn.
           assert (q <> p) by (intros ->; contradiction).
           assert (q <> r).
           { intros ->. apply (Hdisj r Hr). apply elem_of_cons. auto. }
           rewrite lookup_delete_ne, !lookup_insert_ne by congruence.
           reflexivity.
      * intros q t Hq Ht. cbn. rewrite lookup_delete_ne by congruence.
        destruct (decide (q = r)) as [-> | Hqr].
        -- rewrite lookup_insert_eq. rewrite Htr in Ht. injection Ht as <-.
           eexists. split; [reflexivity |]. split; reflexivity.
        -- rewrite !lookup_insert_ne by congruence. eauto.
      * intros cb Hcb. reflexivity.
Qed.

(* ------------------------------------------------------------------ *)
(** ** Destroying a context *)

Lemma free_context_loop_detaches l : forall fuel inner (s : St) ca cx,
  ctxs s !! ca = Some cx -> segment s ca (root cx) l None ->
  (length l <= fuel)%nat ->
  exists s',
    free_context_loop fuel inner ca s = Done s' /\
    is_Some (ctxs s' !! ca) /\
    (forall cb, cb <> ca -> ctxs s' !! cb = ctxs s !! cb) /\
    (forall q, q ∈ l ->
       exists t, timers s !! q = Some t /\
                 timers s' !! q = Some (set_ctx None (set_next None t))) /\
    (forall q, q ∉ l -> timers s' !! q = timers s !! q).
Proof.
  induction l as [| r l IH]; intros fuel inner s ca cx Hx Hseg Hfuel;
    pose proof Hx as Hlx; apply load_ctx_Done in Hlx.
  - cbn [segment] in Hseg. exists s.
    split; [destruct fuel; cbn [free_context_loop]; rewrite Hlx; cbn [bind];
            rewrite Hseg; reflexivity |].
    split; [eauto |]. split; [reflexivity |].
    split; [intros q Hq; apply elem_of_nil in Hq; contradiction | reflexivity].
  - pose proof (segment_NoDup _ _ _ _ Hseg) as Hnd.
    apply NoDup_cons in Hnd as [Hr Hnd].
    cbn [segment] in Hseg. destruct Hseg as (Hroot & tr & Htr & Hcr & Hrest).
    destruct fuel as [| fuel]; [cbn [length] in Hfuel; lia |].
    cbn [free_context_loop]. rewrite Hlx. cbn [bind]. rewrite Hroot.
    unfold unlink_timer.
    pose proof Htr as Hlr. apply load_timer_Done in Hlr. rewrite Hlr.
    cbn [bind]. rewrite Hcr.
    change (load_ctx ca (store_timer r (set_ctx None (set_next None tr)) s))
      with (load_ctx ca s).
    rewrite Hlx. cbn [bind]. rewrite decide_True by exact Hroot. cbn [bind].
    destruct (IH fuel inner
                (store_ctx ca (set_root (next tr) cx)
                   (store_timer r (set_ctx None (set_next None tr)) s))
                ca (set_root (next tr) cx))
      as (s' & Hrun & Hlive & Hother & Hin & Hout).
    + cbn. apply lookup_insert_eq.
    + cbn [root set_root]. eapply segment_frame; [| exact Hrest].
      intros q Hq. cbn. apply lookup_insert_ne. intros <-. contradiction.
    + cbn [length] in Hfuel. lia.
    + exists s'. split; [exact Hrun |]. split; [exact Hlive |].
      split; [| split].
      * intros cb Hcb. rewrite (Hother cb Hcb). cbn.
        apply lookup_insert_ne. congruence.
      * intros q Hq. apply elem_of_cons in Hq as [-> | Hq].
        -- exists tr. split; [exact Htr |]. rewrite (Hout r Hr).
           cbn. apply lookup_insert_eq.
        -- destruct (Hin q Hq) as (t & Ht & Ht'). exists t.
           split; [| exact Ht']. cbn in Ht.
           rewrite lookup_insert_ne in Ht; [exact Ht |].
           intros <-. contradiction.
      * intros q Hq. apply not_elem_of_cons in Hq as [Hqr Hq].
        rewrite (Hout q Hq). cbn. apply lookup_insert_ne. congruence.
Qed.

(** X11: [stimer_free_context] on a live context whose list is well
    formed, with a budget of one iteration per registered timer, completes
    and releases the context; every timer that was registered is left live
    and detached (context and next pointers [NULL]) with its timing fields
    untouched, also its running flag; no other timer and no other context
    changes. *)
Theorem stimer_free_context_detaches (ca : addr) (l : list addr) fuel (s : St) :
  registered s ca l -> (length l <= fuel)%nat ->
  exists s',
    stimer_free_context fuel (Some ca) s = Done s' /\
    ctxs s' !! ca = None /\
    (forall cb, cb <> ca -> ctxs s' !! cb = ctxs s !! cb) /\
    (forall q, q ∈ l ->
       exists t t', timers s !! q = Some t /\ timers s' !! q = Some t' /\
                    ctx t = Some ca /\ ctx t' = None /\ next t' = None /\
                    timing t' = timing t) /\
    (forall q, q ∉ l -> timers s' !! q = timers s !! q).
Proof.
  intros (cx & Hx & Hseg) Hfuel.
  destruct (free_context_loop_detaches l fuel fuel s ca cx Hx Hseg Hfuel)
    as (s1 & Hrun & _ & Hother & Hin & Hout).
  unfold stimer_free_context. rewrite Hrun. cbn [bind].
  eexists. split; [reflexivity |].
  split; [cbn; apply lookup_delete_eq |].
  split; [| split].
  - intros cb Hcb. cbn. rewrite lookup_delete_ne by congruence. auto.
  - intros q Hq. destruct (Hin q Hq) as (t & Ht & Ht').
    destruct (segment_live _ _ _ _ _ _ Hseg Hq) as (t0 & Ht0 & Hc0).
    rewrite Ht in Ht0. injection Ht0 as <-.
    exists t. eexists. split; [exact Ht |]. split; [exact Ht' |].
    repeat split. exact Hc0.
  - exact Hout.
Qed.

(* ------------------------------------------------------------------ *)
(** ** The sweep *)

Lemma segment_relink l : forall (s s' : St) ca ts e,
  (forall q, q ∈ l ->
     exists t t', timers s !! q = Some t /\ timers s' !! q = Some t' /\
                  ctx t' = ctx t /\ next t' = next t) ->
  segment s ca ts l e -> segment s' ca ts l e.
Proof.
  induction l as [| q l IH]; intros s s' ca ts e Hsame Hseg; cbn [segment] in *;
    [exact Hseg |].
  destruct Hseg as (-> & t & Hq & Hc & Hrest).
  split; [reflexivity |].
  destruct (Hsame q) as (t0 & t' & Ht0 & Ht' & Hc' & Hn'); [apply elem_of_cons; auto |].
  rewrite Hq in Ht0. injection Ht0 as <-.
  exists t'. split; [exact Ht' |]. split; [congruence |].
  rewrite Hn'. eapply IH; [| exact Hrest].
  intros r Hr. apply Hsame. apply elem_of_cons. auto.
Qed.

Lemma sweep_each_once l : forall fuel (s : St) ca cx tmv now ts,
  ctxs s !! ca = Some cx -> segment s ca ts l None ->
  (length l <= fuel)%nat ->
  exists s',
    sweep tm_get_diff fuel tmv now ts s = Done s' /\
    ctxs s' = ctxs s /\
    (forall q, q ∉ l -> timers s' !! q = timers s !! q) /\
    (forall q, q ∈ l ->
       exists t sq t',
         timers s !! q = Some t /\
         advance_and_checkpoint tm_get_diff q tmv now s = Done sq /\
         timers sq !! q = Some t' /\ timers s' !! q = Some t' /\
         ctx t' = ctx t /\ next t' = next t).
Proof.
  induction l as [| r l IH]; intros fuel s ca cx tmv now ts Hx Hseg Hfuel.
  - cbn [segment] in Hseg. subst ts. exists s.
    split; [destruct fuel; reflexivity |]. split; [reflexivity |].
    split; [reflexivity |].
    intros q Hq. apply elem_of_nil in Hq. contradiction.
  - pose proof (segment_NoDup _ _ _ _ Hseg) as Hnd.
    apply NoDup_cons in Hnd as [Hr Hnd].
    cbn [segment] in Hseg. destruct Hseg as (-> & tr & Htr & Hcr & Hrest).
    destruct fuel as [| fuel]; [cbn [length] in Hfuel; lia |].
    cbn [sweep].
    pose proof (advance_and_checkpoint_effect r tmv now s tr ca cx Htr Hcr Hx)
      as Hadv.
    set (tr' := if is_running tr && (0 <? tm_get_diff tmv now (checkpoint tr))
                then _ else tr) in Hadv.
    assert (Hlinks : ctx tr' = ctx tr /\ next tr' = next tr).
    { subst tr'. destruct (_ && _); split; reflexivity. }
    destruct Hlinks as [Hc' Hn'].
    rewrite Hadv. cbn [bind]. rewrite load_timer_store_eq. cbn [bind].
    destruct (IH fuel (store_timer r tr' s) ca cx tmv now (next tr'))
      as (s' & Hrun & Hxs & Hout & Hin).
    + exact Hx.
    + rewrite Hn'. eapply segment_frame; [| exact Hrest].
      intros q Hq. cbn. apply lookup_insert_ne. intros <-. contradiction.
    + cbn [length] in Hfuel. lia.
    + exists s'. split; [exact Hrun |]. split; [exact Hxs |].
      split.
      * intros q Hq. apply not_elem_of_cons in Hq as [Hqr Hq].
        rewrite (Hout q Hq). cbn. apply lookup_insert_ne. congruence.
      * intros q Hq. apply elem_of_cons in Hq as [-> | Hq].
        -- exists tr, (store_timer r tr' s), tr'.
           split; [exact Htr |]. split; [exact Hadv |].
           split; [cbn; apply lookup_insert_eq |].
           split; [rewrite (Hout r Hr); cbn; apply lookup_insert_eq |].
           split; assumption.
        -- destruct (Hin q Hq) as (t & sq & t' & Ht & Hsq & Hsqq & Hs'q & Hcq & Hnq).
           assert (Hqr : q <> r) by (intros ->; contradiction).
           cbn in Ht. rewrite lookup_insert_ne in Ht by congruence.
           destruct (segment_live _ _ _ _ _ _ Hrest Hq) as (t0 & Ht0 & Hc0).
           rewrite Ht in Ht0. injection Ht0 as <-.
           assert (Ht1 : timers (store_timer r tr' s) !! q = Some t).
           { cbn. rewrite lookup_insert_ne by congruence. exact Ht. }
           rewrite (advance_and_checkpoint_effect q tmv now _ t ca cx Ht1 Hc0 Hx)
             in Hsq.
           injection Hsq as <-. cbn in Hsqq. rewrite lookup_insert_eq in Hsqq.
           injection Hsqq as <-.
           exists t. eexists. eexists. split; [exact Ht |].
           split; [apply (advance_and_checkpoint_effect q tmv now s t ca cx Ht Hc0 Hx) |].
           split; [cbn; apply lookup_insert_eq |].
           split; [exact Hs'q |]. split; assumption.
Qed.

(** X12: [stimer_execute_context] on a live context whose list is well
    formed, with a budget of one iteration per registered timer, completes
    without a fault; every registered timer ends exactly as its own
    on-demand advance at this sample would leave it, the list is the same
    afterwards, and no other timer and no context changes. *)
Theorem stimer_execute_context_sweeps (ca : addr) (l : list addr) fuel
    (w : world) (s : St) :
  registered s ca l -> (length l <= fuel)%nat ->
  exists s',
    stimer_execute_context tm_get_diff fuel (Some ca) w s = Done s' /\
    ctxs s' = ctxs s /\
    registered s' ca l /\
    (forall q, q ∉ l -> timers s' !! q = timers s !! q) /\
    (forall q, q ∈ l ->
       exists sq, advance_and_checkpoint_2 tm_get_diff q w s = Done sq /\
                  timers s' !! q = timers sq !! q).
Proof.
  intros (cx & Hx & Hseg) Hfuel.
  destruct (sweep_each_once l fuel s ca cx (tm cx) (sample cx w) (root cx)
              Hx Hseg Hfuel) as (s' & Hrun & Hxs & Hout & Hin).
  pose proof Hx as Hlx. apply load_ctx_Done in Hlx.
  exists s'. split; [unfold stimer_execute_context; rewrite Hlx; exact Hrun |].
  split; [exact Hxs |]. split; [| split; [exact Hout |]].
  - exists cx. split; [rewrite Hxs; exact Hx |].
    eapply segment_relink; [| exact Hseg].
    intros q Hq.
    destruct (Hin q Hq) as (t & sq & t' & Ht & _ & _ & Ht' & Hc & Hn).
    exists t, t'. auto.
  - intros q Hq.
    destruct (Hin q Hq) as (t & sq & t' & Ht & Hsq & Hsqq & Ht' & _ & _).
    destruct (segment_live _ _ _ _ _ _ Hseg Hq) as (t0 & Ht0 & Hc0).
    rewrite Ht in Ht0. injection Ht0 as <-.
    exists sq. split; [| congruence].
    unfold advance_and_checkpoint_2.
    apply load_timer_Done in Ht. rewrite Ht. cbn [bind].
    rewrite Hc0, Hlx. cbn [bind]. exact Hsq.
Qed.

(* ------------------------------------------------------------------ *)
(** ** What the elapsed-time query returns *)

(** X13: [stimer_get_elapsed_time] is exact.  On a running timer attached
    to a live context, with a canonical elapsed time whose seconds are not
    about to wrap, when the counter difference since the checkpoint is worth
    at most one second, the call completes and writes a canonical duration
    that stands for the elapsed time plus the time since the checkpoint; the
    timer then holds that duration, and its checkpoint is the sample when the
    counter has moved forward. *)
Theorem stimer_get_elapsed_time_exact (p : addr) (w : world) (s : St) t ca cx d0 :
  timers s !! p = Some t -> ctx t = Some ca -> ctxs s !! ca = Some cx ->
  is_running t = true ->
  normalized (elapsed t) -> seconds (elapsed t) + 1 < U32_MOD ->
  forall a,
    a = (if 0 <? tm_get_diff (tm cx) (sample cx w) (checkpoint t)
         then u32 (tm_get_diff (tm cx) (sample cx w) (checkpoint t) * ns_per_count cx)
         else 0) ->
    a <= NS_PER_S ->
    exists s1 t1 d,
      stimer_get_elapsed_time tm_get_diff (Some p) (Some d0) w s
      = Done (s1, Some d) /\
      normalized d /\ total_ns d = total_ns (elapsed t) + a /\
      timers s1 !! p = Some t1 /\ elapsed t1 = d /\
      checkpoint t1
      = (if 0 <? tm_get_diff (tm cx) (sample cx w) (checkpoint t)
         then sample cx w else checkpoint t).
Proof.
  intros Ht Hc Hx Hr Hne Hw a Ha Hle.
  pose proof Ht as Hl. apply load_timer_Done in Hl.
  pose proof Hx as Hlx. apply load_ctx_Done in Hlx.
  unfold stimer_get_elapsed_time. rewrite Hl. cbn [bind].
  rewrite Hr, Hc, Hlx. cbn [bind].
  rewrite (advance_and_checkpoint_effect p (tm cx) (sample cx w) s t ca cx Ht Hc Hx).
  cbn [bind]. rewrite load_timer_store_eq. cbn [bind].
  rewrite Hr. cbn [andb].
  destruct (0 <? tm_get_diff (tm cx) (sample cx w) (checkpoint t));
    (eexists; eexists; eexists; split; [reflexivity |]).
  - cbn [elapsed checkpoint set_checkpoint set_elapsed]. rewrite <- Ha.
    assert (Ha0 : 0 <= a <= NS_PER_S).
    { split; [subst a; apply u32_range | exact Hle]. }
    destruct (advance_timer_duration_step (elapsed t) a Hne Ha0) as [Hn' Htot].
    rewrite Z.mod_small in Htot.
    + split; [exact Hn' |]. split; [exact Htot |].
      split; [cbn; apply lookup_insert_eq |]. split; reflexivity.
    + destruct Hne as [[? ?] ?].
      unfold total_ns, NS_PER_S, U32_MOD in *. nia.
  - subst a. split; [exact Hne |]. split; [lia |].
    split; [cbn; apply lookup_insert_eq |]. split; reflexivity.
Qed.

(* ------------------------------------------------------------------ *)
(** ** The duration pointers *)

(** X14: the two functions that take a pointer to a duration treat [NULL]
    differently.  [stimer_expire_from_now] checks it and does nothing at
    all; [stimer_get_elapsed_time] does not: on a timer that is not [NULL]
    it writes through the pointer, so with a [NULL] duration it never
    completes, whatever the timer and the heap. *)
Theorem duration_pointer_null (ts : ptr) (p : addr) (w : world) (s : St) :
  stimer_expire_from_now ts None w s = Done s /\
  (forall r, stimer_get_elapsed_time tm_get_diff (Some p) None w s <> Done r).
Proof.
  split; [destruct ts; reflexivity |].
  intros r Hrun. unfold stimer_get_elapsed_time in Hrun.
  inv_bind Hrun as tr. inv_bind Hrun as s1. inv_bind Hrun as tr1.
  discriminate.
Qed.

End More.

(* ------------------------------------------------------------------ *)
(** ** Instances of the further properties *)

Lemma two_timer_state_registered :
  registered two_timer_state 1%positive [2%positive; 1%positive].
Proof.
  exists (test_ctx (Some 2%positive)). split; [reflexivity |].
  cbn [segment]. split; [reflexivity |].
  exists (mk_stimer (Some 1%positive) (Some 1%positive) 0
            duration_zero duration_zero false).
  split; [reflexivity |]. split; [reflexivity |]. split; [reflexivity |].
  exists (stopped_timer 0 duration_zero duration_zero).
  split; [reflexivity |]. split; reflexivity.
Qed.

Lemma one_timer_valid (t : stimer) :
  ctx t = Some 1%positive -> ctx_valid (one_timer t) t.
Proof.
  intros Hc. unfold ctx_valid. rewrite Hc.
  exists (test_ctx (Some 1%positive)). reflexivity.
Qed.

Lemma timer_duration_ge_order_witness :
  timer_duration_ge (mk_duration 2 5) (mk_duration 1 7) = true.
Proof.
  destruct timer_duration_ge_order as (_ & _ & Htrans & _).
  apply (Htrans (mk_duration 2 5) (mk_duration 2 0) (mk_duration 1 7));
    reflexivity.
Defined.

Lemma setters_units_agree_witness :
  stimer_expire_from_now_us (Some 1%positive) (2 * 1000) 0
    (one_timer (stopped_timer 0 duration_zero duration_zero))
  = stimer_expire_from_now_ms (Some 1%positive) 2 0
      (one_timer (stopped_timer 0 duration_zero duration_zero)).
Proof.
  destruct (setters_units_agree 2 (Some 1%positive) 0
              (one_timer (stopped_timer 0 duration_zero duration_zero))
              ltac:(unfold in_u32, U32_MOD; lia)) as (_ & H & _).
  exact H.
Defined.

(** Two ticks into a 2 ms interval: expired. *)
Lemma stimer_is_expired_exact_witness :
  exists s1,
    stimer_is_expired ring_diff (Some 1%positive) 2
      (one_timer (running_timer 0 (mk_duration 0 2000000) duration_zero))
    = Done (s1, true).
Proof.
  destruct (stimer_is_expired_exact ring_diff 1%positive 2
              (one_timer (running_timer 0 (mk_duration 0 2000000) duration_zero))
              (running_timer 0 (mk_duration 0 2000000) duration_zero)
              1%positive (test_ctx (Some 1%positive))
              eq_refl eq_refl eq_refl eq_refl
              ltac:(arith) ltac:(arith) ltac:(arith)
              2000000 eq_refl ltac:(arith)) as [s1 H].
  exists s1. exact H.
Defined.

Lemma start_then_query_witness :
  exists s1,
    stimer_start (Some 1%positive) 7
      (one_timer (running_timer 3 (mk_duration 0 5) (mk_duration 2 10)))
    = Done s1 /\
    forall d0, stimer_get_elapsed_time ring_diff (Some 1%positive) (Some d0) 7 s1
               = Done (s1, Some duration_zero).
Proof.
  exact (proj1 (start_then_query ring_diff 1%positive 7
                  (one_timer (running_timer 3 (mk_duration 0 5) (mk_duration 2 10)))
                  (running_timer 3 (mk_duration 0 5) (mk_duration 2 10))
                  1%positive (test_ctx (Some 1%positive))
                  ring_diff_same_le eq_refl eq_refl eq_refl)).
Defined.

Lemma stimer_stop_idempotent_witness :
  exists s1,
    stimer_stop ring_diff (Some 1%positive) 5
      (one_timer (running_timer 0 duration_zero duration_zero))
    = Done s1 /\
    forall w', stimer_stop ring_diff (Some 1%positive) w' s1 = Done s1.
Proof.
  destruct (stimer_stop_idempotent ring_diff 1%positive 5
              (one_timer (running_timer 0 duration_zero duration_zero))
              (running_timer 0 duration_zero duration_zero)
              eq_refl
              (one_timer_valid (running_timer 0 duration_zero duration_zero) eq_refl))
    as (s1 & t1 & H1 & _ & _ & _ & _ & _ & _ & H2).
  exists s1. split; assumption.
Defined.

(** Three ticks into a 2 ms interval: the advance clears the expiry. *)
Lemma stimer_advance_clears_expiry_witness :
  exists s2 t2,
    stimer_advance ring_diff (Some 1%positive) 3
      (one_timer (running_timer 0 (mk_duration 0 2000000) duration_zero))
    = Done s2 /\
    timers s2 !! 1%positive = Some t2 /\
    (timer_duration_ge (elapsed t2) (expire_interval t2) = true <->
     2 * total_ns (mk_duration 0 2000000) <= total_ns (mk_duration 0 3000000)).
Proof.
  apply (stimer_advance_clears_expiry ring_diff 1%positive 3
           (one_timer (running_timer 0 (mk_duration 0 2000000) duration_zero))
           (one_timer (running_timer 3 (mk_duration 0 2000000) (mk_duration 0 3000000)))
           (running_timer 0 (mk_duration 0 2000000) duration_zero)
           (running_timer 3 (mk_duration 0 2000000) (mk_duration 0 3000000))
           eq_refl eq_refl eq_refl eq_refl
           ltac:(arith) ltac:(arith) eq_refl).
Defined.

Lemma stimer_alloc_registers_witness :
  exists s' p t,
    stimer_alloc true (Some 1%positive) two_timer_state = Done (s', Some p) /\
    timers two_timer_state !! p = None /\
    timers s' !! p = Some t /\
    timing t = (0, duration_zero, duration_zero, false) /\
    registered s' 1%positive [p; 2%positive; 1%positive] /\
    (forall q, q <> p -> timers s' !! q = timers two_timer_state !! q) /\
    (forall cb, cb <> 1%positive -> ctxs s' !! cb = ctxs two_timer_state !! cb).
Proof.
  apply (stimer_alloc_registers 1%positive [2%positive; 1%positive] two_timer_state).
  exact two_timer_state_registered.
Defined.

Lemma stimer_alloc_free_roundtrip_witness :
  stimer_free 0 (Some 1%positive)
    (one_timer (stopped_timer 0 duration_zero duration_zero))
  = Done ctx_only.
Proof.
  apply (stimer_alloc_free_roundtrip true (Some 1%positive) ctx_only
           (one_timer (stopped_timer 0 duration_zero duration_zero)) 1%positive).
  reflexivity.
Defined.

Lemma stimer_alloc_free_context_roundtrip_witness :
  stimer_free_context 0 (Some 1%positive) ctx_only = Done empty_state.
Proof.
  apply (stimer_alloc_free_context_roundtrip ring_initialize true
           (Some 1%positive) mock_get_time 255 1000000
           empty_state ctx_only 1%positive).
  reflexivity.
Defined.

(** The first timer is the second of the list: one iteration finds it. *)
Lemma stimer_free_unlinks_witness :
  exists s',
    stimer_free 1 (Some 1%positive) two_timer_state = Done s' /\
    timers s' !! 1%positive = None /\
    registered s' 1%positive ([2%positive] ++ []).
Proof.
  destruct (stimer_free_unlinks 1%positive 1%positive [2%positive] [] 1%nat
              two_timer_state two_timer_state_registered ltac:(cbn; lia))
    as (s' & H1 & H2 & H3 & _).
  exists s'. repeat split; assumption.
Defined.

Lemma stimer_free_context_detaches_witness :
  exists s',
    stimer_free_context 2 (Some 1%positive) two_timer_state = Done s' /\
    ctxs s' !! 1%positive = None.
Proof.
  destruct (stimer_free_context_detaches 1%positive [2%positive; 1%positive] 2%nat
              two_timer_state two_timer_state_registered ltac:(cbn; lia))
    as (s' & H1 & H2 & _).
  exists s'. split; assumption.
Defined.

Lemma stimer_execute_context_sweeps_witness :
  exists s',
    stimer_execute_context ring_diff 2 (Some 1%positive) 5 two_timer_state = Done s' /\
    ctxs s' = ctxs two_timer_state /\
    registered s' 1%positive [2%positive; 1%positive].
Proof.
  destruct (stimer_execute_context_sweeps ring_diff 1%positive
              [2%positive; 1%positive] 2%nat 5
              two_timer_state two_timer_state_registered ltac:(cbn; lia))
    as (s' & H1 & H2 & H3 & _).
  exists s'. repeat split; assumption.
Defined.

(** Five ticks after the start: 5 ms. *)
Lemma stimer_get_elapsed_time_exact_witness :
  exists s1 d,
    stimer_get_elapsed_time ring_diff (Some 1%positive) (Some duration_zero) 5
      (one_timer (running_timer 0 duration_zero duration_zero))
    = Done (s1, Some d) /\
    normalized d /\ total_ns d = total_ns duration_zero + 5000000.
Proof.
  destruct (stimer_get_elapsed_time_exact ring_diff 1%positive 5
              (one_timer (running_timer 0 duration_zero duration_zero))
              (running_timer 0 duration_zero duration_zero)
              1%positive (test_ctx (Some 1%positive)) duration_zero
              eq_refl eq_refl eq_refl eq_refl
              ltac:(arith) ltac:(arith)
              5000000 eq_refl ltac:(arith))
    as (s1 & t1 & d & H1 & H2 & H3 & _).
  exists s1, d. repeat split; try assumption; apply H2.
Defined.
